(** * AI Health Coach: the recommendation core of [utils/aiService.js]

    A shallow embedding of the static class [AIService] (energy-need
    calculator, rule-based recommendation generators and meal-plan filter)
    together with the properties of it that the specification states.

    JavaScript numbers are IEEE 754 binary64 values.  They are modelled by
    the standard library's bit-level specification [spec_float] at
    precision 53 and maximal exponent 1024, so that every arithmetic
    operator of the source is the correctly rounded operator of the
    language, not an idealised one. *)

From Stdlib Require Import ZArith List String Bool Lia.
From Stdlib Require Import Floats.SpecFloat.
From Stdlib Require Import Reals Lra.
Import ListNotations.

Local Open Scope string_scope.
Local Open Scope list_scope.
Local Open Scope Z_scope.

(** ** JavaScript numbers *)

Module JS.

Definition prec : Z := 53.
Definition emax : Z := 1024.

(** A Number value.  Values built by the operators below are always
    canonical binary64 values; [wf] states it for inputs. *)
Definition number : Type := spec_float.

Definition wf (x : number) : bool := valid_binary prec emax x.

Definition NaN : number := S754_nan.

Definition mul : number -> number -> number := SFmul prec emax.
Definition add : number -> number -> number := SFadd prec emax.
Definition sub : number -> number -> number := SFsub prec emax.
Definition div : number -> number -> number := SFdiv prec emax.

(** [x > y] of the language: false as soon as one side is NaN. *)
Definition gt (x y : number) : bool := SFltb y x.
Definition le (x y : number) : bool := SFleb x y.

(** The Number value of an integer (exact up to 2^53). *)
Definition of_Z (n : Z) : number := binary_normalize prec emax n 0 false.

(** The Number value of the decimal literal [n / 10^k]: the literal denotes
    the binary64 value nearest to its mathematical value, which is what the
    correctly rounded quotient of the two exactly representable integers
    [n] and [10^k] is. *)
Definition dec (n : Z) (k : nat) : number :=
  div (of_Z n) (of_Z (10 ^ Z.of_nat k)).

(** [Math.round]: the integer nearest to [x], a tie going towards
    +Infinity, i.e. floor(x + 1/2) computed exactly.  NaN, the infinities
    and the zeros are returned unchanged; a value that rounds to zero keeps
    the sign of [x]. *)
Definition round_Z (s : bool) (m : positive) (e : Z) : Z :=
  Z.shiftr (cond_Zopp s (Zpos m) + 2 ^ (- e - 1)) (- e).

Definition Math_round (x : number) : number :=
  match x with
  | S754_finite s m e =>
      if 0 <=? e then x
      else
        let n := round_Z s m e in
        if n =? 0 then S754_zero s else of_Z n
  | _ => x
  end.

(** Truthiness of a Number: +0, -0 and NaN are falsy. *)
Definition truthy_number (x : number) : bool :=
  match x with
  | S754_zero _ | S754_nan => false
  | _ => true
  end.

End JS.

(** ** Values, errors and completions *)

(** The values a property read of [activityFactors] can produce: [undefined],
    a Number, or some object (the functions and objects inherited from
    [Object.prototype]; their identity is irrelevant to the program). *)
Inductive jsval : Type :=
| VUndefined
| VNumber (x : JS.number)
| VObject.

Definition truthy (v : jsval) : bool :=
  match v with
  | VUndefined => false
  | VNumber x => JS.truthy_number x
  | VObject => true
  end.

(** [a || b] *)
Definition js_or (a b : jsval) : jsval := if truthy a then a else b.

(** ToNumber, applied by [*] to its operands.  An ordinary object or a
    function converts through its string form, which is not a numeric
    literal. *)
Definition ToNumber (v : jsval) : JS.number :=
  match v with
  | VUndefined => JS.NaN
  | VNumber x => x
  | VObject => JS.NaN
  end.

Inductive JSError : Type :=
| TypeError
| Error (message : string).

(** The outcome of a call: a returned value or a thrown exception (for the
    [async] methods: a fulfilled or a rejected promise). *)
Inductive completion (A : Type) : Type :=
| Return (a : A)
| Throw (e : JSError).

Arguments Return {A} a.
Arguments Throw {A} e.

Definition bind {A B : Type} (c : completion A) (k : A -> completion B)
  : completion B :=
  match c with
  | Return a => k a
  | Throw e => Throw e
  end.

Notation "x <- c ;; k" := (bind c (fun x => k))
  (at level 61, c at next level, right associativity).

(** [try { c } catch (error) { throw e' }] *)
Definition try_catch_rethrow {A : Type} (c : completion A) (e' : JSError)
  : completion A :=
  match c with
  | Return a => Return a
  | Throw _ => Throw e'
  end.

(** Reading a property of a value that may be [undefined]: a TypeError when
    it is.  [None] stands for an absent ([undefined]) field throughout. *)
Definition get_of {A B : Type} (o : option A) (f : A -> B) : completion B :=
  match o with
  | Some a => Return (f a)
  | None => Throw TypeError
  end.

(** [Array.prototype.includes] on an array of strings. *)
Definition includes (l : list string) (s : string) : bool :=
  existsb (String.eqb s) l.

(** ** Data model *)

(** An object carrying preferences: the [preferences] field of a profile
    and the second argument of [generateMealPlan]. *)
Record Preferences : Type := {
  workoutTypes : option (list string);
  duration : option Z;
  daysPerWeek : option Z;
  dietaryRestrictions : option (list string);
  cuisinePreferences : option (list string)
}.

(** A user profile.  An absent numeric field behaves, in the arithmetic the
    program does with it, as NaN and is represented by it. *)
Record Profile : Type := {
  age : JS.number;
  weight : JS.number;
  height : JS.number;
  gender : option string;
  activityLevel : option string;
  fitnessGoals : option (list string);
  preferences : option Preferences
}.

(** One day's logged outcome.  An absent numeric field is NaN, as above. *)
Record ProgressEntry : Type := {
  workoutCompleted : option bool;
  caloriesConsumed : JS.number;
  targetCalories : JS.number
}.

Record Recommendation : Type := {
  type : string;
  message : string;
  action : string
}.

Record Macros : Type := {
  m_protein : JS.number;
  m_carbs : JS.number;
  m_fats : JS.number
}.

Record NutritionNeeds : Type := {
  dailyCalories : JS.number;
  macros : Macros
}.

Record Meal : Type := {
  name : string;
  calories : Z;
  protein : Z;
  carbs : Z;
  fats : Z;
  ingredients : list string;
  prepTime : Z;
  vegan : bool;
  glutenFree : bool
}.

Record Recommendations : Type := {
  workout : list Recommendation;
  nutrition : list Recommendation;
  lifestyle : list Recommendation
}.

(** ** The service *)

Module AIService.

Definition motivation : Recommendation := {|
  type := "motivation";
  message := "You missed yesterday's workout. Let's get back on track with a lighter session today!";
  action := "Start with a 20-minute beginner workout" |}.

Definition cardio : Recommendation := {|
  type := "cardio";
  message := "Add 15 minutes of HIIT training to boost fat burning";
  action := "Try interval running or cycling" |}.

Definition strength : Recommendation := {|
  type := "strength";
  message := "Focus on progressive overload this week";
  action := "Increase weights by 5% or add 2 more reps" |}.

Definition calorie_control : Recommendation := {|
  type := "calorie_control";
  message := "You exceeded your calorie target yesterday. Let's focus on portion control today.";
  action := "Try using smaller plates and eating slowly" |}.

Definition protein_rec : Recommendation := {|
  type := "protein";
  message := "Ensure adequate protein intake with plant-based sources";
  action := "Include lentils, quinoa, or Greek yogurt in your meals" |}.

Definition sleep : Recommendation := {|
  type := "sleep";
  message := "Quality sleep is crucial for recovery and weight management";
  action := "Aim for 7-9 hours of sleep tonight" |}.

Definition hydration : Recommendation := {|
  type := "hydration";
  message := "Stay hydrated to support your metabolism and workout performance";
  action := "Drink at least 8 glasses of water today" |}.

(** [recommendations.push(r)] when [b] holds. *)
Definition push_if (b : bool) (r : Recommendation)
  (recommendations : list Recommendation) : list Recommendation :=
  if b then recommendations ++ [r] else recommendations.

(** [currentProgress && currentProgress.length > 0], then
    [currentProgress[0]]. *)
Definition recentProgress (currentProgress : option (list ProgressEntry))
  : option ProgressEntry :=
  match currentProgress with
  | Some (e :: _) => Some e
  | _ => None
  end.

Definition generateWorkoutRecommendations (userProfile : Profile)
  (currentProgress : option (list ProgressEntry))
  : completion (list Recommendation) :=
  let recommendations := [] in
  let recommendations :=
    match recentProgress currentProgress with
    | Some recent =>
        push_if
          match workoutCompleted recent with
          | Some false => true
          | _ => false
          end
          motivation recommendations
    | None => recommendations
    end in
  wl <- get_of (fitnessGoals userProfile) (fun g => includes g "weight_loss") ;;
  let recommendations := push_if wl cardio recommendations in
  mg <- get_of (fitnessGoals userProfile) (fun g => includes g "muscle_gain") ;;
  let recommendations := push_if mg strength recommendations in
  Return recommendations.

Definition c_1_2 : JS.number := JS.dec 12 1.

Definition generateNutritionRecommendations (userProfile : Profile)
  (currentProgress : option (list ProgressEntry))
  : completion (list Recommendation) :=
  let recommendations := [] in
  let recommendations :=
    match recentProgress currentProgress with
    | Some recent =>
        push_if
          (JS.gt (caloriesConsumed recent)
                 (JS.mul (targetCalories recent) c_1_2))
          calorie_control recommendations
    | None => recommendations
    end in
  dr <- get_of (preferences userProfile) dietaryRestrictions ;;
  let recommendations :=
    push_if
      match dr with
      | Some l => includes l "vegetarian"
      | None => false
      end
      protein_rec recommendations in
  Return recommendations.

Definition generateLifestyleRecommendations (userProfile : Profile)
  (currentProgress : option (list ProgressEntry))
  : list Recommendation :=
  let recommendations := [] in
  let recommendations := recommendations ++ [sleep] in
  let recommendations := recommendations ++ [hydration] in
  recommendations.

Definition getPersonalizedRecommendations (userProfile : Profile)
  (currentProgress : option (list ProgressEntry))
  : completion Recommendations :=
  try_catch_rethrow
    (w <- generateWorkoutRecommendations userProfile currentProgress ;;
     n <- generateNutritionRecommendations userProfile currentProgress ;;
     let l := generateLifestyleRecommendations userProfile currentProgress in
     Return {| workout := w; nutrition := n; lifestyle := l |})
    (Error "Failed to generate AI recommendations").

(** *** calculateNutritionNeeds *)

(** The own properties of the object literal [activityFactors]. *)
Definition activityFactors : list (string * JS.number) :=
  [ ("sedentary", JS.dec 12 1);
    ("lightly_active", JS.dec 1375 3);
    ("moderately_active", JS.dec 155 2);
    ("very_active", JS.dec 1725 3) ].

(** The property names every ordinary object inherits from
    [Object.prototype]; each of them reads as a function or an object. *)
Definition Object_prototype_keys : list string :=
  [ "constructor"; "hasOwnProperty"; "isPrototypeOf";
    "propertyIsEnumerable"; "toLocaleString"; "toString"; "valueOf";
    "__defineGetter__"; "__defineSetter__"; "__lookupGetter__";
    "__lookupSetter__"; "__proto__" ].

Fixpoint own_property (o : list (string * JS.number)) (k : string)
  : option JS.number :=
  match o with
  | [] => None
  | (k', v) :: o' => if String.eqb k k' then Some v else own_property o' k
  end.

(** [o[key]] for an object literal [o]: an own property first, then the
    prototype.  An [undefined] key is the property name "undefined". *)
Definition get_property (o : list (string * JS.number)) (key : option string)
  : jsval :=
  let k := match key with Some k => k | None => "undefined" end in
  match own_property o k with
  | Some v => VNumber v
  | None => if includes Object_prototype_keys k then VObject else VUndefined
  end.

Definition calculateNutritionNeeds (userProfile : Profile)
  : completion NutritionNeeds :=
  let age := age userProfile in
  let weight := weight userProfile in
  let height := height userProfile in
  let bmr :=
    if match gender userProfile with
       | Some g => String.eqb g "male"
       | None => false
       end
    then
      JS.sub (JS.add (JS.add (JS.dec 88362 3) (JS.mul (JS.dec 13397 3) weight))
                     (JS.mul (JS.dec 4799 3) height))
             (JS.mul (JS.dec 5677 3) age)
    else
      JS.sub (JS.add (JS.add (JS.dec 447593 3) (JS.mul (JS.dec 9247 3) weight))
                     (JS.mul (JS.dec 3098 3) height))
             (JS.mul (JS.dec 4330 3) age) in
  let tdee :=
    JS.mul bmr
      (ToNumber (js_or (get_property activityFactors (activityLevel userProfile))
                       (VNumber (JS.dec 12 1)))) in
  wl <- get_of (fitnessGoals userProfile) (fun g => includes g "weight_loss") ;;
  targetCalories <-
    (if wl then Return (JS.sub tdee (JS.of_Z 500))
     else
       mg <- get_of (fitnessGoals userProfile)
               (fun g => includes g "muscle_gain") ;;
       Return (if mg then JS.add tdee (JS.of_Z 300) else tdee)) ;;
  Return {|
    dailyCalories := JS.Math_round targetCalories;
    macros := {|
      m_protein :=
        JS.Math_round (JS.div (JS.mul targetCalories (JS.dec 25 2)) (JS.of_Z 4));
      m_carbs :=
        JS.Math_round (JS.div (JS.mul targetCalories (JS.dec 45 2)) (JS.of_Z 4));
      m_fats :=
        JS.Math_round (JS.div (JS.mul targetCalories (JS.dec 30 2)) (JS.of_Z 9))
    |}
  |}.

(** *** generateMealPlan *)

Definition mealDatabase : list (string * list Meal) :=
  [ ("breakfast",
     [ {| name := "Overnight Oats with Berries";
          calories := 350; protein := 15; carbs := 55; fats := 8;
          ingredients := ["oats"; "milk"; "berries"; "honey"];
          prepTime := 5; vegan := false; glutenFree := true |};
       {| name := "Avocado Toast";
          calories := 320; protein := 12; carbs := 35; fats := 18;
          ingredients := ["whole grain bread"; "avocado"; "eggs"; "tomato"];
          prepTime := 10; vegan := false; glutenFree := false |} ]);
    ("lunch",
     [ {| name := "Grilled Chicken Salad";
          calories := 450; protein := 35; carbs := 25; fats := 22;
          ingredients :=
            ["chicken breast"; "mixed greens"; "olive oil"; "vegetables"];
          prepTime := 15; vegan := false; glutenFree := true |};
       {| name := "Quinoa Buddha Bowl";
          calories := 420; protein := 18; carbs := 52; fats := 16;
          ingredients := ["quinoa"; "chickpeas"; "vegetables"; "tahini"];
          prepTime := 20; vegan := true; glutenFree := true |} ]);
    ("dinner",
     [ {| name := "Baked Salmon with Vegetables";
          calories := 480; protein := 40; carbs := 20; fats := 25;
          ingredients := ["salmon"; "broccoli"; "sweet potato"; "olive oil"];
          prepTime := 25; vegan := false; glutenFree := true |} ]) ].

(** The callback of [filter]. *)
Definition keep_meal (dietaryRestrictions : list string) (meal : Meal) : bool :=
  if includes dietaryRestrictions "vegan" && negb (vegan meal) then false
  else if includes dietaryRestrictions "gluten_free" && negb (glutenFree meal)
       then false
       else true.

(** [Object.keys(mealDatabase).forEach(...)]: the slots are visited, and the
    result object filled, in the order the literal defines them. *)
Definition filterMeals (dietaryRestrictions : list string)
  : list (string * list Meal) :=
  map (fun '(mealType, meals) =>
         (mealType, filter (keep_meal dietaryRestrictions) meals))
      mealDatabase.

(** The second argument defaults to [{}] when it is [undefined]; each
    destructured field defaults to [[]] when it is [undefined]. *)
Definition generateMealPlan (userProfile : Profile)
  (preferences : option Preferences)
  : completion (list (string * list Meal)) :=
  let orEmpty (o : option (list string)) :=
    match o with Some l => l | None => [] end in
  let dietaryRestrictions :=
    orEmpty (match preferences with
             | Some p => dietaryRestrictions p
             | None => None
             end) in
  let cuisinePreferences :=
    orEmpty (match preferences with
             | Some p => cuisinePreferences p
             | None => None
             end) in
  needs <- calculateNutritionNeeds userProfile ;;
  Return (filterMeals dietaryRestrictions).

End AIService.

(** ** The specification's reference definitions

    These follow the words of the specification, not the source; the
    theorems below compare the service with them. *)

Module Spec.

(** "male: 88.362 + 13.397*weight + 4.799*height - 5.677*age;
     female/other: 447.593 + 9.247*weight + 3.098*height - 4.330*age" *)
Definition field_is (field : option string) (s : string) : bool :=
  match field with
  | Some v => String.eqb v s
  | None => false
  end.

Definition BMR (gender : option string) (weight height age : JS.number)
  : JS.number :=
  if field_is gender "male" then
    JS.sub (JS.add (JS.add (JS.dec 88362 3) (JS.mul (JS.dec 13397 3) weight))
                   (JS.mul (JS.dec 4799 3) height))
           (JS.mul (JS.dec 5677 3) age)
  else
    JS.sub (JS.add (JS.add (JS.dec 447593 3) (JS.mul (JS.dec 9247 3) weight))
                   (JS.mul (JS.dec 3098 3) height))
           (JS.mul (JS.dec 4330 3) age).

(** "sedentary 1.2, lightly_active 1.375, moderately_active 1.55,
     very_active 1.725, and 1.2 when missing or not one of the four" *)
Definition activityFactor (activityLevel : option string) : JS.number :=
  if field_is activityLevel "sedentary" then JS.dec 12 1
  else if field_is activityLevel "lightly_active" then JS.dec 1375 3
  else if field_is activityLevel "moderately_active" then JS.dec 155 2
  else if field_is activityLevel "very_active" then JS.dec 1725 3
  else JS.dec 12 1.

Definition TDEE (p : Profile) : JS.number :=
  JS.mul (BMR (gender p) (weight p) (height p) (age p))
         (activityFactor (activityLevel p)).

(** "if weight_loss is among fitnessGoals, subtract 500; else if muscle_gain
     is present, add 300; otherwise no adjustment" *)
Definition target (tdee : JS.number) (goals : list string) : JS.number :=
  if includes goals "weight_loss" then JS.sub tdee (JS.of_Z 500)
  else if includes goals "muscle_gain" then JS.add tdee (JS.of_Z 300)
  else tdee.

(** "protein = 25% of calories / 4 kcal-per-gram, carbs = 45% / 4,
     fats = 30% / 9; each rounded to nearest integer independently" *)
Definition grams (t : JS.number) (share : JS.number) (kcal_per_gram : Z)
  : JS.number :=
  JS.Math_round (JS.div (JS.mul t share) (JS.of_Z kcal_per_gram)).

Definition computeTargets (p : Profile) (goals : list string)
  : NutritionNeeds :=
  let t := target (TDEE p) goals in
  {| dailyCalories := JS.Math_round t;
     macros := {| m_protein := grams t (JS.dec 25 2) 4;
                  m_carbs := grams t (JS.dec 45 2) 4;
                  m_fats := grams t (JS.dec 30 2) 9 |} |}.

(** "keep a MealDefinition if and only if: NOT (vegan is requested AND the
     meal's vegan flag is false) AND NOT (gluten_free is requested AND the
     meal's glutenFree flag is false)" *)
Definition keep (restrictions : list string) (meal : Meal) : bool :=
  negb (includes restrictions "vegan" && negb (vegan meal))
  && negb (includes restrictions "gluten_free" && negb (glutenFree meal)).

(** A collection that is absent, read as an empty one. *)
Definition orEmpty {A : Type} (o : option (list A)) : list A :=
  match o with
  | Some l => l
  | None => []
  end.

(** The restrictions a meal-plan request carries. *)
Definition restrictions (preferences : option Preferences) : list string :=
  match preferences with
  | Some p => orEmpty (dietaryRestrictions p)
  | None => []
  end.

(** "recentProgressList is non-empty and its first element's
     workoutCompleted is false" *)
Definition missedWorkout (progress : list ProgressEntry) : bool :=
  match progress with
  | e :: _ => match workoutCompleted e with Some false => true | _ => false end
  | [] => false
  end.

(** "recentProgressList is non-empty and the first entry's caloriesConsumed
     exceeds targetCalories * 1.2" *)
Definition overTarget (progress : list ProgressEntry) : bool :=
  match progress with
  | e :: _ =>
      JS.gt (caloriesConsumed e) (JS.mul (targetCalories e) (JS.dec 12 1))
  | [] => false
  end.

(** One optional recommendation. *)
Definition when (b : bool) (r : Recommendation) : list Recommendation :=
  if b then [r] else [].

End Spec.

(** ** The rule-based generators *)

Section Generators.

Import AIService.

Lemma includes_in (l : list string) (s : string) :
  includes l s = true <-> In s l.
Proof.
  unfold includes. rewrite existsb_exists. split.
  - intros [x [Hin Heq]]. apply String.eqb_eq in Heq. now subst.
  - intros Hin. exists s. split; [assumption | apply String.eqb_refl].
Qed.

Lemma recentProgress_orEmpty (progress : option (list ProgressEntry)) :
  recentProgress progress = hd_error (Spec.orEmpty progress).
Proof. destruct progress as [[|e l]|]; reflexivity. Qed.

Lemma workout_rules (p : Profile) (progress : option (list ProgressEntry))
  (goals : list string) :
  fitnessGoals p = Some goals ->
  generateWorkoutRecommendations p progress =
  Return (Spec.when (Spec.missedWorkout (Spec.orEmpty progress)) motivation
          ++ Spec.when (includes goals "weight_loss") cardio
          ++ Spec.when (includes goals "muscle_gain") strength).
Proof.
  intros Hg. unfold generateWorkoutRecommendations. rewrite Hg. simpl.
  f_equal.
  destruct progress as [[|e l]|]; simpl;
    try destruct (workoutCompleted e) as [[|]|];
    destruct (includes goals "weight_loss"),
             (includes goals "muscle_gain"); reflexivity.
Qed.

Lemma nutrition_rules (p : Profile) (progress : option (list ProgressEntry))
  (prefs : Preferences) :
  preferences p = Some prefs ->
  generateNutritionRecommendations p progress =
  Return (Spec.when (Spec.overTarget (Spec.orEmpty progress)) calorie_control
          ++ Spec.when
               (includes (Spec.orEmpty (dietaryRestrictions prefs)) "vegetarian")
               protein_rec).
Proof.
  intros Hp. unfold generateNutritionRecommendations. rewrite Hp. simpl.
  f_equal.
  destruct progress as [[|e l]|]; simpl;
    destruct (dietaryRestrictions prefs) as [dr|]; simpl;
    try destruct (includes dr "vegetarian");
    try (unfold c_1_2;
         destruct (JS.gt (caloriesConsumed e)
                         (JS.mul (targetCalories e) (JS.dec 12 1))));
    reflexivity.
Qed.

(** C5, amended.  For every profile that has a [fitnessGoals] array and
    every progress list, absent or present, the workout generator
    completes and returns, in this order: a recommendation of type
    "motivation" exactly when the progress list is non-empty and its first
    entry has [workoutCompleted === false]; then one of type "cardio"
    exactly when the goals include weight_loss; then one of type
    "strength" exactly when they include muscle_gain.  The three rules
    fire independently, and with no progress and no matching goal the
    result is empty.  For a profile without a [fitnessGoals] array the
    generator throws a TypeError. *)
Theorem generateWorkoutRecommendations_rules
  (p : Profile) (progress : option (list ProgressEntry)) :
  (fitnessGoals p = None ->
   generateWorkoutRecommendations p progress = Throw TypeError)
  /\ (forall goals : list string, fitnessGoals p = Some goals ->
      exists rs : list Recommendation,
        generateWorkoutRecommendations p progress = Return rs
        /\ rs = Spec.when (Spec.missedWorkout (Spec.orEmpty progress)) motivation
                ++ Spec.when (includes goals "weight_loss") cardio
                ++ Spec.when (includes goals "muscle_gain") strength
        /\ map type rs
           = (if Spec.missedWorkout (Spec.orEmpty progress)
              then ["motivation"] else [])
             ++ (if includes goals "weight_loss" then ["cardio"] else [])
             ++ (if includes goals "muscle_gain" then ["strength"] else [])
        /\ (In "motivation" (map type rs)
            <-> exists e rest, Spec.orEmpty progress = e :: rest
                               /\ workoutCompleted e = Some false)
        /\ (In "cardio" (map type rs) <-> In "weight_loss" goals)
        /\ (In "strength" (map type rs) <-> In "muscle_gain" goals)
        /\ (Spec.orEmpty progress = [] -> ~ In "weight_loss" goals ->
            ~ In "muscle_gain" goals -> rs = [])).
Proof.
  split.
  - intros Hg. unfold generateWorkoutRecommendations. now rewrite Hg.
  - intros goals Hg. eexists. split; [exact (workout_rules p progress goals Hg)|].
    split; [reflexivity|].
    rewrite <- !includes_in.
    assert (Hm : Spec.missedWorkout (Spec.orEmpty progress) = true
                 <-> exists e rest, Spec.orEmpty progress = e :: rest
                                    /\ workoutCompleted e = Some false).
    { destruct (Spec.orEmpty progress) as [|e rest]; cbn [Spec.missedWorkout].
      - split; [discriminate|]. intros (e & rest & H & _). discriminate H.
      - split.
        + intros H. exists e, rest. split; [reflexivity|].
          destruct (workoutCompleted e) as [[|]|]; try discriminate; reflexivity.
        + intros (e' & rest' & [= <- <-] & ->). reflexivity. }
    rewrite <- Hm.
    assert (He : Spec.orEmpty progress = [] ->
                 Spec.missedWorkout (Spec.orEmpty progress) = false)
      by (intros ->; reflexivity).
    clear Hm.
    destruct (Spec.missedWorkout (Spec.orEmpty progress)),
             (includes goals "weight_loss"),
             (includes goals "muscle_gain");
      cbn [Spec.when app map type motivation cardio strength In];
      repeat split; intros; try reflexivity; try discriminate; try tauto;
      repeat match goal with
      | H : _ \/ _ |- _ => destruct H
      | H : False |- _ => contradiction
      | H : @eq string _ _ |- _ => discriminate H
      end;
      try (specialize (He ltac:(assumption)); discriminate He);
      exfalso; auto.
Qed.

(** C6, amended.  For every profile that has a [preferences] object and
    every progress list, absent or present, the nutrition generator
    completes and returns a recommendation of type "calorie_control"
    exactly when the progress list is non-empty and its first entry's
    caloriesConsumed is greater than targetCalories * 1.2, followed by one
    of type "protein" exactly when [preferences.dietaryRestrictions] is
    present and includes vegetarian; the two rules are independent.  For a
    profile without a [preferences] object the generator throws a
    TypeError. *)
Theorem generateNutritionRecommendations_rules
  (p : Profile) (progress : option (list ProgressEntry)) :
  (preferences p = None ->
   generateNutritionRecommendations p progress = Throw TypeError)
  /\ (forall prefs : Preferences, preferences p = Some prefs ->
      exists rs : list Recommendation,
        generateNutritionRecommendations p progress = Return rs
        /\ rs = Spec.when (Spec.overTarget (Spec.orEmpty progress))
                  calorie_control
                ++ Spec.when
                     (includes (Spec.orEmpty (dietaryRestrictions prefs))
                        "vegetarian")
                     protein_rec
        /\ map type rs
           = (if Spec.overTarget (Spec.orEmpty progress)
              then ["calorie_control"] else [])
             ++ (if includes (Spec.orEmpty (dietaryRestrictions prefs))
                      "vegetarian"
                 then ["protein"] else [])
        /\ (In "calorie_control" (map type rs)
            <-> exists e rest,
                  Spec.orEmpty progress = e :: rest
                  /\ JS.gt (caloriesConsumed e)
                       (JS.mul (targetCalories e) (JS.dec 12 1)) = true)
        /\ (In "protein" (map type rs)
            <-> exists restrictions,
                  dietaryRestrictions prefs = Some restrictions
                  /\ In "vegetarian" restrictions)).
Proof.
  split.
  - intros Hp. unfold generateNutritionRecommendations. rewrite Hp.
    destruct (recentProgress progress); reflexivity.
  - intros prefs Hp. eexists.
    split; [exact (nutrition_rules p progress prefs Hp)|].
    split; [reflexivity|].
    assert (Ho : Spec.overTarget (Spec.orEmpty progress) = true
                 <-> exists e rest,
                       Spec.orEmpty progress = e :: rest
                       /\ JS.gt (caloriesConsumed e)
                            (JS.mul (targetCalories e) (JS.dec 12 1)) = true).
    { destruct (Spec.orEmpty progress) as [|e rest]; cbn [Spec.overTarget].
      - split; [discriminate|]. intros (e & rest & H & _). discriminate H.
      - split.
        + intros H. exists e, rest. split; [reflexivity|assumption].
        + intros (e' & rest' & [= <- <-] & H). exact H. }
    assert (Hv : includes (Spec.orEmpty (dietaryRestrictions prefs))
                   "vegetarian" = true
                 <-> exists restrictions,
                       dietaryRestrictions prefs = Some restrictions
                       /\ In "vegetarian" restrictions).
    { rewrite includes_in.
      destruct (dietaryRestrictions prefs) as [l|]; cbn [Spec.orEmpty].
      - split.
        + intros H. exists l. split; [reflexivity|assumption].
        + intros (l' & [= <-] & H). exact H.
      - split; [contradiction|]. intros (l' & H & _). discriminate H. }
    rewrite <- Ho, <- Hv. clear Ho Hv.
    destruct (Spec.overTarget (Spec.orEmpty progress)),
             (includes (Spec.orEmpty (dietaryRestrictions prefs)) "vegetarian");
      cbn [Spec.when app map type calorie_control protein_rec In];
      repeat split; intros; try reflexivity; try discriminate;
      repeat match goal with
      | H : _ \/ _ |- _ => destruct H
      | H : False |- _ => contradiction
      | H : @eq string _ _ |- _ => discriminate H
      end; tauto.
Qed.

(** C7.  The lifestyle generator returns the same two recommendations,
    sleep then hydration, whatever the profile and the progress list. *)
Theorem generateLifestyleRecommendations_fixed
  (p : Profile) (progress : option (list ProgressEntry)) :
  generateLifestyleRecommendations p progress = [sleep; hydration]
  /\ List.length (generateLifestyleRecommendations p progress) = 2%nat
  /\ map type (generateLifestyleRecommendations p progress)
     = ["sleep"; "hydration"].
Proof. repeat split. Qed.

End Generators.

(** ** Sample data: the two seeded users *)

Definition john : Profile := {|
  age := JS.of_Z 28;
  weight := JS.of_Z 75;
  height := JS.of_Z 175;
  gender := Some "male";
  activityLevel := Some "moderately_active";
  fitnessGoals := Some ["weight_loss"; "muscle_gain"];
  preferences := Some {| workoutTypes := Some ["strength"; "cardio"];
                         duration := Some 45;
                         daysPerWeek := Some 4;
                         dietaryRestrictions := Some [];
                         cuisinePreferences := None |} |}.

Definition jane : Profile := {|
  age := JS.of_Z 32;
  weight := JS.of_Z 60;
  height := JS.of_Z 165;
  gender := Some "female";
  activityLevel := Some "lightly_active";
  fitnessGoals := Some ["endurance"; "strength"];
  preferences := Some {| workoutTypes := Some ["cardio"; "flexibility"];
                         duration := Some 30;
                         daysPerWeek := Some 3;
                         dietaryRestrictions := Some ["vegetarian"];
                         cuisinePreferences := None |} |}.

(** A profile stored without fitness goals. *)
Definition no_goals : Profile := {|
  age := age jane;
  weight := weight jane;
  height := height jane;
  gender := gender jane;
  activityLevel := activityLevel jane;
  fitnessGoals := None;
  preferences := preferences jane |}.

(** A profile stored without a preferences object. *)
Definition no_preferences : Profile := {|
  age := age jane;
  weight := weight jane;
  height := height jane;
  gender := gender jane;
  activityLevel := activityLevel jane;
  fitnessGoals := fitnessGoals jane;
  preferences := None |}.

(** A day on which the workout was skipped and 2600 kcal were eaten against
    a target of 2000. *)
Definition bad_day : ProgressEntry := {|
  workoutCompleted := Some false;
  caloriesConsumed := JS.of_Z 2600;
  targetCalories := JS.of_Z 2000 |}.

Section Service.

Import AIService.

Lemma generateWorkoutRecommendations_rules_witness :
  fitnessGoals john = Some ["weight_loss"; "muscle_gain"]
  /\ exists rs,
       generateWorkoutRecommendations john (Some [bad_day]) = Return rs
       /\ map type rs = ["motivation"; "cardio"; "strength"].
Proof.
  split; [reflexivity|].
  destruct (proj2 (generateWorkoutRecommendations_rules john (Some [bad_day]))
              ["weight_loss"; "muscle_gain"] eq_refl)
    as (rs & Hrun & _ & Htags & _).
  exists rs. split; [exact Hrun|exact Htags].
Defined.

Lemma generateNutritionRecommendations_rules_witness :
  preferences jane <> None
  /\ exists rs,
       generateNutritionRecommendations jane (Some [bad_day]) = Return rs
       /\ map type rs = ["calorie_control"; "protein"].
Proof.
  split; [discriminate|].
  destruct (proj2 (generateNutritionRecommendations_rules jane (Some [bad_day]))
              _ eq_refl)
    as (rs & Hrun & _ & Htags & _).
  exists rs. split; [exact Hrun|exact Htags].
Defined.

(** C5, as stated, fails: with no progress and no goals at all, a profile
    without a [fitnessGoals] array does not get the empty sequence; the
    generator throws. *)
Lemma generateWorkoutRecommendations_no_goals_throws :
  fitnessGoals no_goals = None
  /\ generateWorkoutRecommendations no_goals (Some []) = Throw TypeError
  /\ generateWorkoutRecommendations no_goals (Some []) <> Return [].
Proof. repeat split. discriminate. Qed.

(** C6, as stated, fails: for a profile without a [preferences] object, a
    first entry whose caloriesConsumed exceeds targetCalories * 1.2 yields
    no calorie_control recommendation; the generator throws. *)
Lemma generateNutritionRecommendations_no_preferences_throws :
  preferences no_preferences = None
  /\ JS.gt (caloriesConsumed bad_day)
       (JS.mul (targetCalories bad_day) (JS.dec 12 1)) = true
  /\ generateNutritionRecommendations no_preferences (Some [bad_day])
     = Throw TypeError.
Proof. repeat split. Qed.

(** C4, as stated, fails: for a profile without a [fitnessGoals] field the
    call does not complete; it throws. *)
Lemma getPersonalizedRecommendations_no_goals_throws :
  fitnessGoals no_goals = None
  /\ getPersonalizedRecommendations no_goals (Some [])
     = Throw (Error "Failed to generate AI recommendations").
Proof. split; reflexivity. Qed.

(** C4, amended.  An absent progress list and an absent
    [preferences.dietaryRestrictions] are read as empty collections: the
    rules that need them emit nothing and the call completes.  The
    [fitnessGoals] array and the [preferences] object themselves are
    required: when either is absent the call throws the error
    "Failed to generate AI recommendations". *)
Theorem getPersonalizedRecommendations_absent_collections
  (p : Profile) (progress : option (list ProgressEntry)) :
  getPersonalizedRecommendations p progress =
  match fitnessGoals p, preferences p with
  | Some goals, Some prefs =>
      let entries := Spec.orEmpty progress in
      let restrictions := Spec.orEmpty (dietaryRestrictions prefs) in
      Return {|
        workout :=
          Spec.when (Spec.missedWorkout entries) motivation
          ++ Spec.when (includes goals "weight_loss") cardio
          ++ Spec.when (includes goals "muscle_gain") strength;
        nutrition :=
          Spec.when (Spec.overTarget entries) calorie_control
          ++ Spec.when (includes restrictions "vegetarian") protein_rec;
        lifestyle := [sleep; hydration] |}
  | _, _ => Throw (Error "Failed to generate AI recommendations")
  end.
Proof.
  unfold getPersonalizedRecommendations.
  destruct (fitnessGoals p) as [goals|] eqn:Hg.
  - rewrite (workout_rules p progress goals Hg). simpl.
    destruct (preferences p) as [prefs|] eqn:Hp.
    + rewrite (nutrition_rules p progress prefs Hp). reflexivity.
    + unfold generateNutritionRecommendations. rewrite Hp. reflexivity.
  - unfold generateWorkoutRecommendations. rewrite Hg. reflexivity.
Qed.

(** *** The meal plan *)

Lemma keep_meal_spec (restrictions : list string) (meal : Meal) :
  keep_meal restrictions meal = Spec.keep restrictions meal.
Proof.
  unfold keep_meal, Spec.keep.
  destruct (includes restrictions "vegan"),
           (includes restrictions "gluten_free"),
           (vegan meal), (glutenFree meal); reflexivity.
Qed.

Lemma generateMealPlan_eq (p : Profile) (prefs : option Preferences) :
  generateMealPlan p prefs =
  match fitnessGoals p with
  | Some _ => Return (filterMeals (Spec.restrictions prefs))
  | None => Throw TypeError
  end.
Proof.
  unfold generateMealPlan, calculateNutritionNeeds.
  destruct (fitnessGoals p) as [goals|]; simpl.
  - destruct (includes goals "weight_loss"); simpl;
      destruct prefs as [q|]; reflexivity.
  - reflexivity.
Qed.

Lemma filterMeals_kept (restrictions : list string) (mealType : string)
  (meals : list Meal) (meal : Meal) :
  In (mealType, meals) (filterMeals restrictions) ->
  In meal meals -> keep_meal restrictions meal = true.
Proof.
  unfold filterMeals. intros Hin Hmeal.
  apply in_map_iff in Hin. destruct Hin as [[k l] [Heq _]].
  injection Heq as _ <-. apply filter_In in Hmeal. tauto.
Qed.

(** The catalog meals of one slot, in definition order. *)
Definition slot (mealType : string) : list Meal :=
  match find (fun kv => String.eqb (fst kv) mealType) mealDatabase with
  | Some kv => snd kv
  | None => []
  end.

(** C8.  For a profile with fitness goals, the plan maps breakfast, lunch
    and dinner, in this order, to the catalog meals of the slot that pass
    the specification's dietary test, in catalog order.  With no restriction
    each slot is the whole catalog sequence; with vegan requested no
    returned meal has a false vegan flag. *)
Theorem generateMealPlan_filter
  (p : Profile) (prefs : option Preferences) (goals : list string) :
  fitnessGoals p = Some goals ->
  let r := Spec.restrictions prefs in
  generateMealPlan p prefs =
    Return [ ("breakfast", filter (Spec.keep r) (slot "breakfast"));
             ("lunch", filter (Spec.keep r) (slot "lunch"));
             ("dinner", filter (Spec.keep r) (slot "dinner")) ]
  /\ (r = [] -> generateMealPlan p prefs = Return mealDatabase)
  /\ (In "vegan" r ->
      forall plan mealType meals meal,
        generateMealPlan p prefs = Return plan ->
        In (mealType, meals) plan -> In meal meals -> vegan meal = true).
Proof.
  intros Hg r. rewrite generateMealPlan_eq, Hg. fold r.
  assert (Hplan : filterMeals r =
            [ ("breakfast", filter (Spec.keep r) (slot "breakfast"));
              ("lunch", filter (Spec.keep r) (slot "lunch"));
              ("dinner", filter (Spec.keep r) (slot "dinner")) ]).
  { unfold filterMeals, mealDatabase, slot. cbn [map find fst snd String.eqb].
    repeat (f_equal; try (apply filter_ext; intro; apply keep_meal_spec)). }
  split; [now rewrite Hplan|]. split.
  - intros Hr. rewrite Hr. reflexivity.
  - intros Hv plan mealType meals meal Heq Hin Hmeal.
    injection Heq as <-. rewrite Hplan in Hin.
    apply includes_in in Hv.
    assert (Hk : Spec.keep r meal = true).
    { rewrite <- keep_meal_spec. rewrite <- Hplan in Hin.
      apply (filterMeals_kept r mealType meals meal Hin Hmeal). }
    unfold Spec.keep in Hk. rewrite Hv in Hk.
    destruct (vegan meal); [reflexivity | discriminate].
Qed.

Lemma generateMealPlan_filter_witness :
  fitnessGoals john = Some ["weight_loss"; "muscle_gain"]
  /\ generateMealPlan john
       (Some {| workoutTypes := None; duration := None; daysPerWeek := None;
                dietaryRestrictions := Some ["vegan"];
                cuisinePreferences := None |})
     = Return [ ("breakfast", []);
                ("lunch", filter (Spec.keep ["vegan"]) (slot "lunch"));
                ("dinner", []) ].
Proof.
  split; [reflexivity|].
  exact (proj1 (generateMealPlan_filter john _ _ eq_refl)).
Defined.

(** C9.  Two requests that differ only in [cuisinePreferences] get the same
    outcome from [generateMealPlan], for every profile. *)
Theorem generateMealPlan_ignores_cuisine
  (p : Profile) (wt : option (list string)) (d dpw : option Z)
  (dr c1 c2 : option (list string)) :
  generateMealPlan p
    (Some {| workoutTypes := wt; duration := d; daysPerWeek := dpw;
             dietaryRestrictions := dr; cuisinePreferences := c1 |})
  = generateMealPlan p
      (Some {| workoutTypes := wt; duration := d; daysPerWeek := dpw;
               dietaryRestrictions := dr; cuisinePreferences := c2 |}).
Proof. rewrite !generateMealPlan_eq. reflexivity. Qed.

(** C10.  [generateMealPlan] runs [calculateNutritionNeeds] first: for a
    profile without a [fitnessGoals] array the call throws a TypeError
    whatever the request, although for a profile that has one the plan is a
    function of the dietary restrictions alone, not of the computed
    targets. *)
Theorem generateMealPlan_requires_goals
  (p : Profile) (prefs : option Preferences) :
  (fitnessGoals p = None ->
   calculateNutritionNeeds p = Throw TypeError
   /\ generateMealPlan p prefs = Throw TypeError)
  /\ (forall q goals, fitnessGoals q = Some goals ->
      generateMealPlan q prefs = Return (filterMeals (Spec.restrictions prefs))).
Proof.
  split.
  - intros Hg. split.
    + unfold calculateNutritionNeeds. rewrite Hg. reflexivity.
    + rewrite generateMealPlan_eq, Hg. reflexivity.
  - intros q goals Hg. rewrite generateMealPlan_eq, Hg. reflexivity.
Qed.

End Service.

(** ** The energy-need calculator against the reference algorithm *)

Section Calculator.

Import AIService.

(** The property name an [activityLevel] is looked up under. *)
Definition activityKey (activityLevel : option string) : string :=
  match activityLevel with
  | Some k => k
  | None => "undefined"
  end.

(** Away from the names inherited from [Object.prototype], the factor the
    source multiplies by is the reference one. *)
Lemma activity_factor_spec (level : option string) :
  includes Object_prototype_keys (activityKey level) = false ->
  ToNumber (js_or (get_property activityFactors level) (VNumber (JS.dec 12 1)))
  = Spec.activityFactor level.
Proof.
  intros Hk. unfold get_property, Spec.activityFactor, Spec.field_is.
  fold (activityKey level). rewrite Hk. clear Hk.
  destruct level as [k|]; [|reflexivity].
  cbn [activityKey activityFactors own_property].
  destruct (String.eqb k "sedentary"); [reflexivity|].
  destruct (String.eqb k "lightly_active"); [reflexivity|].
  destruct (String.eqb k "moderately_active"); [reflexivity|].
  destruct (String.eqb k "very_active"); reflexivity.
Qed.

(** An inherited name reads as an object, which is truthy, so the fallback
    is not taken and the product is NaN. *)
Lemma activity_factor_inherited (level : option string) :
  includes Object_prototype_keys (activityKey level) = true ->
  ToNumber (js_or (get_property activityFactors level) (VNumber (JS.dec 12 1)))
  = JS.NaN.
Proof.
  intros Hk. unfold get_property. fold (activityKey level).
  destruct (own_property activityFactors (activityKey level)) as [v|] eqn:Hown.
  - exfalso. revert Hown Hk. cbn [activityFactors own_property].
    repeat match goal with
    | |- context [String.eqb ?a ?b] =>
        destruct (String.eqb_spec a b) as [->|_]; [discriminate|]
    end.
    discriminate.
  - rewrite Hk. reflexivity.
Qed.

(** The calculator computes the reference targets for every profile that
    has a [fitnessGoals] array and whose [activityLevel] is not the name of
    a property inherited from [Object.prototype]. *)
Lemma calculateNutritionNeeds_refines (p : Profile) (goals : list string) :
  fitnessGoals p = Some goals ->
  includes Object_prototype_keys (activityKey (activityLevel p)) = false ->
  calculateNutritionNeeds p = Return (Spec.computeTargets p goals).
Proof.
  intros Hg Hk. unfold calculateNutritionNeeds. rewrite Hg.
  rewrite (activity_factor_spec _ Hk).
  unfold Spec.computeTargets, Spec.target, Spec.TDEE, Spec.BMR, Spec.grams,
    Spec.field_is.
  cbn [get_of bind].
  destruct (includes goals "weight_loss"); cbn [bind]; [reflexivity|].
  destruct (includes goals "muscle_gain"); reflexivity.
Qed.

Lemma calculateNutritionNeeds_john :
  calculateNutritionNeeds john =
  Return {| dailyCalories := JS.of_Z 2250;
            macros := {| m_protein := JS.of_Z 141;
                         m_carbs := JS.of_Z 253;
                         m_fats := JS.of_Z 75 |} |}.
Proof. vm_compute. reflexivity. Qed.

(** A profile whose activity level is the string "toString". *)
Definition odd_level : Profile := {|
  age := JS.of_Z 13;
  weight := JS.of_Z 30;
  height := JS.of_Z 198;
  gender := Some "male";
  activityLevel := Some "toString";
  fitnessGoals := Some [];
  preferences := None |}.

(** C1.  On the profile [odd_level], whose activity level is not one of the
    four enumerated ones, the reference algorithm takes the factor 1.2 and
    yields 1640 kcal, whereas the calculator reads the inherited function
    [activityFactors.toString], which is truthy, and returns NaN for every
    target. *)
Theorem calculateNutritionNeeds_inherited_activityLevel :
  calculateNutritionNeeds odd_level =
    Return {| dailyCalories := JS.NaN;
              macros := {| m_protein := JS.NaN;
                           m_carbs := JS.NaN;
                           m_fats := JS.NaN |} |}
  /\ Spec.computeTargets odd_level [] =
       {| dailyCalories := JS.of_Z 1640;
          macros := {| m_protein := JS.of_Z 103;
                       m_carbs := JS.of_Z 185;
                       m_fats := JS.of_Z 55 |} |}.
Proof. split; vm_compute; reflexivity. Qed.

End Calculator.

(** * Further properties of the service

    The remaining sections study the service beyond the statements above:
    its calculator on the profiles the validation chain accepts, where the
    binary64 arithmetic is followed to the last bit, and the edge cases of
    the calculator, the meal plan and the recommendation generators. *)

(** ** Definitions *)

(** The profile [p] with another activity level, gender or goals. *)
Definition with_activityLevel (l : option string) (p : Profile) : Profile :=
  {| age := age p; weight := weight p; height := height p;
     gender := gender p; activityLevel := l;
     fitnessGoals := fitnessGoals p; preferences := preferences p |}.

Definition with_gender (g : option string) (p : Profile) : Profile :=
  {| age := age p; weight := weight p; height := height p;
     gender := g; activityLevel := activityLevel p;
     fitnessGoals := fitnessGoals p; preferences := preferences p |}.

Definition with_fitnessGoals (goals : option (list string)) (p : Profile)
  : Profile :=
  {| age := age p; weight := weight p; height := height p;
     gender := gender p; activityLevel := activityLevel p;
     fitnessGoals := goals; preferences := preferences p |}.

Definition with_weight (w : JS.number) (p : Profile) : Profile :=
  {| age := age p; weight := w; height := height p;
     gender := gender p; activityLevel := activityLevel p;
     fitnessGoals := fitnessGoals p; preferences := preferences p |}.

(** A request for a meal plan that carries the restrictions [r]. *)
Definition request (r : list string) : option Preferences :=
  Some {| workoutTypes := None; duration := None; daysPerWeek := None;
          dietaryRestrictions := Some r; cuisinePreferences := None |}.

(** The first meal of a slot (an arbitrary meal when the slot is empty). *)
Definition hd_meal (meals : list Meal) : Meal :=
  hd {| name := "none"; calories := 0; protein := 0; carbs := 0; fats := 0;
        ingredients := []; prepTime := 0; vegan := false;
        glutenFree := false |} meals.

(** A logged day on which only the workout was recorded. *)
Definition no_numbers : ProgressEntry :=
  {| workoutCompleted := Some true;
     caloriesConsumed := JS.NaN;
     targetCalories := JS.NaN |}.

(** The result whose four numbers are all NaN. *)
Definition all_NaN : NutritionNeeds :=
  {| dailyCalories := JS.NaN;
     macros := {| m_protein := JS.NaN; m_carbs := JS.NaN; m_fats := JS.NaN |} |}.

(** The factor the calculator multiplies the BMR by:
    [activityFactors[activityLevel] || 1.2], converted to a Number. *)
Definition factor (level : option string) : JS.number :=
  ToNumber (js_or (AIService.get_property AIService.activityFactors level)
                  (VNumber (JS.dec 12 1))).

(** The targets the calculator derives from an energy expenditure. *)
Definition targets (tdee : JS.number) (goals : list string) : NutritionNeeds :=
  let t := Spec.target tdee goals in
  {| dailyCalories := JS.Math_round t;
     macros :=
       {| m_protein := JS.Math_round (JS.div (JS.mul t (JS.dec 25 2)) (JS.of_Z 4));
          m_carbs := JS.Math_round (JS.div (JS.mul t (JS.dec 45 2)) (JS.of_Z 4));
          m_fats := JS.Math_round (JS.div (JS.mul t (JS.dec 30 2)) (JS.of_Z 9)) |} |}.

(** The activity levels the calculator knows. *)
Definition activityLevels : list string :=
  ["sedentary"; "lightly_active"; "moderately_active"; "very_active"].

(** ** Real-number semantics of binary64 *)

Definition bpow (e : Z) : R := powerRZ 2 e.

(** The real number a finite value denotes (0 for the others). *)
Definition B2R (x : JS.number) : R :=
  match x with
  | S754_finite s m e => (IZR (cond_Zopp s (Zpos m)) * bpow e)%R
  | _ => 0%R
  end.

Definition is_finite (x : JS.number) : bool :=
  match x with
  | S754_finite _ _ _ | S754_zero _ => true
  | _ => false
  end.

(** Where a real number lies with respect to the integers [m] and [m + 1]. *)
Definition inbetween (m : Z) (l : location) (x : R) : Prop :=
  match l with
  | loc_Exact => x = IZR m
  | loc_Inexact Lt => (IZR m < x < IZR m + / 2)%R
  | loc_Inexact Eq => x = (IZR m + / 2)%R
  | loc_Inexact Gt => (IZR m + / 2 < x < IZR m + 1)%R
  end.

Definition repr (r : JS.number) (s : bool) (y : R) : Prop :=
  (r = S754_zero s /\ y = 0%R)
  \/ (exists m e, r = S754_finite s m e /\ y = (IZR (Zpos m) * bpow e)%R).

(** The unit roundoff and the underflow threshold of binary64. *)
Definition roundoff : R := bpow (-53).
Definition underflow : R := bpow (-1075).

(** [r] is the correctly rounded value of the real [v], up to the standard
    error model, and is finite. *)
Definition rounds_to (r : JS.number) (v : R) : Prop :=
  is_finite r = true /\ (Rabs (B2R r - v) <= roundoff * Rabs v + underflow)%R.

(** The integer a Number denotes, when it denotes one. *)
Definition integer_value (x : JS.number) : option Z :=
  match x with
  | S754_zero _ => Some 0
  | S754_finite s m e =>
      if 0 <=? e then Some (cond_Zopp s (Zpos m * 2 ^ e))
      else if Zpos m mod 2 ^ (- e) =? 0
           then Some (cond_Zopp s (Zpos m / 2 ^ (- e)))
           else None
  | _ => None
  end.

(** [lo <= x <= hi] for a well-formed Number [x], as the language compares. *)
Definition between (lo hi : Z) (x : JS.number) : bool :=
  JS.wf x && JS.le (JS.of_Z lo) x && JS.le x (JS.of_Z hi).

(** [x] is an integer between [lo] and [hi]. *)
Definition int_between (lo hi : Z) (x : JS.number) : bool :=
  match integer_value x with
  | Some a => (lo <=? a) && (a <=? hi)
  | None => false
  end.

(** The absolute error of one operation on operands of moderate size. *)
Definition delta : R := bpow (-32).

(** [r] is finite and within [k * delta] of the real [v]. *)
Definition near (k : R) (r : JS.number) (v : R) : Prop :=
  is_finite r = true /\ (Rabs (B2R r - v) <= k * delta)%R.

(** Every field present and within the range [validateProfile] accepts. *)
Definition validProfile (p : Profile) : bool :=
  int_between 13 120 (age p)
  && between 30 300 (weight p)
  && between 100 250 (height p)
  && match gender p with
     | Some g => includes ["male"; "female"; "other"] g
     | None => false
     end
  && match activityLevel p with
     | Some l =>
         includes ["sedentary"; "lightly_active"; "moderately_active";
                   "very_active"] l
     | None => false
     end.

Local Notation "'fexp64'" := (SpecFloat.fexp JS.prec JS.emax).

(** ** Binary64 arithmetic in real numbers *)

Section Bpow.

Local Open Scope R_scope.

Lemma bpow_gt_0 (e : Z) : 0 < bpow e.
Proof. apply powerRZ_lt. lra. Qed.

Lemma bpow_add (a b : Z) : bpow (a + b) = bpow a * bpow b.
Proof. apply powerRZ_add. lra. Qed.

Lemma bpow_0 : bpow 0 = 1.
Proof. reflexivity. Qed.

Lemma bpow_1 : bpow 1 = 2.
Proof. unfold bpow. simpl. lra. Qed.

Lemma bpow_m1 : bpow (-1) = / 2.
Proof. unfold bpow. simpl. rewrite Rmult_1_r. reflexivity. Qed.

Lemma bpow_opp (e : Z) : bpow (- e) = / bpow e.
Proof. apply powerRZ_neg'. Qed.

Lemma bpow_succ (e : Z) : bpow (e + 1) = 2 * bpow e.
Proof. rewrite bpow_add, bpow_1. lra. Qed.

Lemma bpow_pred (e : Z) : bpow (e - 1) = bpow e / 2.
Proof.
  replace (e - 1)%Z with (e + -1)%Z by lia.
  rewrite bpow_add, bpow_m1. lra.
Qed.

Lemma bpow_IZR (k : Z) : (0 <= k)%Z -> bpow k = IZR (2 ^ k).
Proof.
  intros Hk. unfold bpow.
  rewrite <- (Z2Nat.id k Hk) at 1. rewrite <- pow_powerRZ.
  rewrite pow_IZR. now rewrite Z2Nat.id.
Qed.

Lemma bpow_le (a b : Z) : (a <= b)%Z -> bpow a <= bpow b.
Proof.
  intros Hab. replace b with (a + (b - a))%Z by lia.
  rewrite bpow_add. rewrite (bpow_IZR (b - a)) by lia.
  assert (1 <= IZR (2 ^ (b - a))).
  { apply IZR_le. assert (0 < 2 ^ (b - a))%Z by (apply Z.pow_pos_nonneg; lia). lia. }
  pose proof (bpow_gt_0 a). nra.
Qed.

Lemma bpow_lt (a b : Z) : (a < b)%Z -> bpow a < bpow b.
Proof.
  intros Hab. apply Rlt_le_trans with (bpow (a + 1)).
  - rewrite bpow_succ. pose proof (bpow_gt_0 a). lra.
  - apply bpow_le. lia.
Qed.

End Bpow.

Section Digits.

Lemma digits2_pos_bounds (m : positive) :
  2 ^ (Zpos (digits2_pos m) - 1) <= Zpos m < 2 ^ Zpos (digits2_pos m).
Proof.
  induction m as [m IH|m IH|]; cbn [digits2_pos].
  - rewrite Pos2Z.inj_succ.
    replace (Z.succ (Zpos (digits2_pos m)) - 1) with (Zpos (digits2_pos m)) by lia.
    rewrite Z.pow_succ_r by lia.
    replace (2 ^ Zpos (digits2_pos m)) with (2 * 2 ^ (Zpos (digits2_pos m) - 1)) in *.
    + lia.
    + rewrite <- Z.pow_succ_r by lia. f_equal. lia.
  - rewrite Pos2Z.inj_succ.
    replace (Z.succ (Zpos (digits2_pos m)) - 1) with (Zpos (digits2_pos m)) by lia.
    rewrite Z.pow_succ_r by lia.
    replace (2 ^ Zpos (digits2_pos m)) with (2 * 2 ^ (Zpos (digits2_pos m) - 1)) in *.
    + lia.
    + rewrite <- Z.pow_succ_r by lia. f_equal. lia.
  - change (2 ^ 0 <= 1 < 2 ^ 1). rewrite Z.pow_0_r, Z.pow_1_r. lia.
Qed.

Lemma Zdigits2_nonneg (m : Z) : 0 <= Zdigits2 m.
Proof. destruct m; simpl; lia. Qed.

Lemma Zdigits2_bounds (m : Z) :
  0 < m -> 2 ^ (Zdigits2 m - 1) <= m < 2 ^ Zdigits2 m.
Proof.
  destruct m as [|p|p]; try lia. intros _. apply digits2_pos_bounds.
Qed.

(** A non-negative integer below [2^k] has at most [k] digits. *)
Lemma Zdigits2_le (m k : Z) : 0 <= m -> 0 <= k -> m < 2 ^ k -> Zdigits2 m <= k.
Proof.
  intros Hm Hk Hlt. destruct (Z.eq_dec m 0) as [->|Hne]; [simpl; lia|].
  destruct (Zdigits2_bounds m ltac:(lia)) as [Hlo _].
  destruct (Z_le_gt_dec (Zdigits2 m) k) as [|Hgt]; [assumption|exfalso].
  assert (2 ^ k <= 2 ^ (Zdigits2 m - 1)) by (apply Z.pow_le_mono_r; lia).
  lia.
Qed.

(** An integer of at least [2^k] has more than [k] digits. *)
Lemma Zdigits2_gt (m k : Z) : 0 <= k -> 2 ^ k <= m -> k < Zdigits2 m.
Proof.
  intros Hk Hle.
  assert (0 < m) by (assert (0 < 2 ^ k) by (apply Z.pow_pos_nonneg; lia); lia).
  destruct (Zdigits2_bounds m ltac:(lia)) as [_ Hhi].
  destruct (Z_lt_le_dec k (Zdigits2 m)) as [|Hge]; [assumption|exfalso].
  assert (2 ^ Zdigits2 m <= 2 ^ k).
  { apply Z.pow_le_mono_r; [lia|assumption]. }
  lia.
Qed.

End Digits.

Section Shift.

Local Open Scope R_scope.

Lemma loc_of_shr_record_of_loc (m : Z) (l : location) :
  loc_of_shr_record (shr_record_of_loc m l) = l
  /\ shr_m (shr_record_of_loc m l) = m.
Proof. destruct l as [|[ | | ]]; split; reflexivity. Qed.

Lemma shr_1_inbetween (mrs : shr_record) (x : R) :
  (0 <= shr_m mrs)%Z ->
  inbetween (shr_m mrs) (loc_of_shr_record mrs) x ->
  (0 <= shr_m (shr_1 mrs))%Z
  /\ inbetween (shr_m (shr_1 mrs)) (loc_of_shr_record (shr_1 mrs)) (x / 2).
Proof.
  destruct mrs as [m r s]. cbn [shr_m]. intros Hm.
  destruct m as [|[p|p|]|p]; try lia;
    destruct r, s; cbn [shr_1 shr_m loc_of_shr_record orb inbetween];
    try rewrite (IZR_POS_xO p); try rewrite (IZR_POS_xI p);
    intros H; (split; [lia|lra]).
Qed.

Lemma iter_shr_1_inbetween (p : positive) :
  forall (mrs : shr_record) (x : R),
  (0 <= shr_m mrs)%Z ->
  inbetween (shr_m mrs) (loc_of_shr_record mrs) x ->
  (0 <= shr_m (SpecFloat.iter_pos shr_1 p mrs))%Z
  /\ inbetween (shr_m (SpecFloat.iter_pos shr_1 p mrs))
       (loc_of_shr_record (SpecFloat.iter_pos shr_1 p mrs)) (x * bpow (- Zpos p)).
Proof.
  induction p as [p IH|p IH|]; intros mrs x Hm Hx; cbn [SpecFloat.iter_pos].
  - destruct (shr_1_inbetween mrs x Hm Hx) as [H1 H2].
    destruct (IH _ _ H1 H2) as [H3 H4].
    destruct (IH _ _ H3 H4) as [H5 H6].
    split; [assumption|].
    replace (x * bpow (- Zpos p~1))
      with (x / 2 * bpow (- Zpos p) * bpow (- Zpos p)); [assumption|].
    replace (- Zpos p~1)%Z with (-1 + (- Zpos p + - Zpos p))%Z by lia.
    rewrite !bpow_add, bpow_m1. lra.
  - destruct (IH _ _ Hm Hx) as [H3 H4].
    destruct (IH _ _ H3 H4) as [H5 H6].
    split; [assumption|].
    replace (x * bpow (- Zpos p~0))
      with (x * bpow (- Zpos p) * bpow (- Zpos p)); [assumption|].
    replace (- Zpos p~0)%Z with (- Zpos p + - Zpos p)%Z by lia.
    rewrite !bpow_add. lra.
  - destruct (shr_1_inbetween mrs x Hm Hx) as [H1 H2].
    split; [assumption|].
    replace (x * bpow (- Zpos 1)) with (x / 2); [exact H2|].
    unfold Rdiv. rewrite <- bpow_m1. reflexivity.
Qed.

(** Shifting a located mantissa right: the value is unchanged, the
    exponent becomes [max ex (ex + n)]. *)
Lemma shr_inbetween (m : Z) (l : location) (ex n : Z) (x : R) :
  (0 <= m)%Z -> inbetween m l x ->
  let mrs := fst (shr (shr_record_of_loc m l) ex n) in
  let e' := snd (shr (shr_record_of_loc m l) ex n) in
  (0 <= shr_m mrs)%Z
  /\ inbetween (shr_m mrs) (loc_of_shr_record mrs) (x * bpow (ex - e'))
  /\ e' = Z.max ex (ex + n)
  /\ ((n <= 0)%Z -> shr_m mrs = m /\ loc_of_shr_record mrs = l).
Proof.
  intros Hm Hx. destruct (loc_of_shr_record_of_loc m l) as [Hl Hsm].
  destruct n as [|p|p]; cbn [shr fst snd].
  - rewrite Hl, Hsm. replace (ex - ex)%Z with 0%Z by lia.
    rewrite bpow_0, Rmult_1_r. repeat split; try assumption; lia.
  - destruct (iter_shr_1_inbetween p (shr_record_of_loc m l) x) as [H1 H2].
    + now rewrite Hsm.
    + now rewrite Hl, Hsm.
    + replace (ex - (ex + Zpos p))%Z with (- Zpos p)%Z by lia.
      repeat split; try assumption; lia.
  - rewrite Hl, Hsm. replace (ex - ex)%Z with 0%Z by lia.
    rewrite bpow_0, Rmult_1_r. repeat split; try assumption; lia.
Qed.

Lemma round_nearest_even_spec (m : Z) (l : location) (x : R) :
  inbetween m l x ->
  let m1 := round_nearest_even m l in
  (m1 = m \/ m1 = (m + 1)%Z)
  /\ Rabs (IZR m1 - x) <= / 2
  /\ (l = loc_Exact -> m1 = m).
Proof.
  destruct l as [|[ | | ]]; cbn [inbetween round_nearest_even]; intros H.
  - subst x. split; [now left|]. split; [|reflexivity].
    rewrite Rminus_diag, Rabs_R0. lra.
  - subst x. destruct (Z.even m).
    + split; [now left|]. split; [|discriminate].
      rewrite Rabs_left1; lra.
    + split; [now right|]. split; [|discriminate].
      rewrite plus_IZR. rewrite Rabs_right; lra.
  - split; [now left|]. split; [|discriminate]. rewrite Rabs_left1; lra.
  - split; [now right|]. split; [|discriminate].
    rewrite plus_IZR. rewrite Rabs_right; lra.
Qed.

End Shift.

Section Core.

Lemma fexp_eq (e : Z) : fexp64 e = Z.max (e - 53) (-1074).
Proof. reflexivity. Qed.

Lemma Zdigits2_succ (m : Z) :
  0 <= m ->
  Zdigits2 m <= Zdigits2 (m + 1) <= Zdigits2 m + 1
  /\ (Zdigits2 (m + 1) = Zdigits2 m + 1 -> m + 1 = 2 ^ Zdigits2 m).
Proof.
  intros Hm. destruct (Z.eq_dec m 0) as [->|Hne].
  - simpl. split; [lia|reflexivity].
  - destruct (Zdigits2_bounds m ltac:(lia)) as [Hlo Hhi].
    destruct (Zdigits2_bounds (m + 1) ltac:(lia)) as [Hlo' Hhi'].
    pose proof (Zdigits2_nonneg m) as Hd.
    assert (Hup : Zdigits2 (m + 1) <= Zdigits2 m + 1).
    { apply Zdigits2_le; try lia. rewrite Z.pow_add_r, Z.pow_1_r by lia. lia. }
    assert (Hdown : Zdigits2 m <= Zdigits2 (m + 1)).
    { destruct (Z_le_gt_dec (Zdigits2 m) (Zdigits2 (m + 1))) as [|Hgt];
        [assumption|exfalso].
      assert (2 ^ Zdigits2 (m + 1) <= 2 ^ (Zdigits2 m - 1))
        by (apply Z.pow_le_mono_r; lia).
      lia. }
    split; [lia|]. intros Heq. rewrite Heq in Hlo'.
    replace (Zdigits2 m + 1 - 1) with (Zdigits2 m) in Hlo' by lia. lia.
Qed.

Local Open Scope R_scope.

Lemma Rabs_bounds (a b : R) : Rabs a <= b -> - b <= a <= b.
Proof. unfold Rabs. destruct (Rcase_abs a); lra. Qed.

Lemma inbetween_bounds (m : Z) (l : location) (x : R) :
  inbetween m l x -> IZR m <= x < IZR m + 1.
Proof. destruct l as [|[ | | ]]; cbn [inbetween]; lra. Qed.

Lemma inbetween_IZR (m z : Z) (l : location) :
  inbetween m l (IZR z) -> m = z.
Proof.
  intros H. apply inbetween_bounds in H. destruct H as [H1 H2].
  apply le_IZR in H1. rewrite <- plus_IZR in H2. apply lt_IZR in H2. lia.
Qed.

(** After the first shift the mantissa fits its exponent. *)
Lemma shr_fits (mx : Z) (lx : location) (ex : Z) (x : R) :
  (0 <= mx)%Z -> inbetween mx lx x ->
  let n := (fexp64 (Zdigits2 mx + ex) - ex)%Z in
  let mrs := fst (shr (shr_record_of_loc mx lx) ex n) in
  let e' := snd (shr (shr_record_of_loc mx lx) ex n) in
  (fexp64 (Zdigits2 (shr_m mrs) + e') <= e')%Z.
Proof.
  intros Hm Hx n mrs e'.
  destruct (shr_inbetween mx lx ex n x Hm Hx) as (Hm' & Hin & He & Hno).
  fold mrs e' in Hm', Hin, He, Hno.
  destruct (Z_le_gt_dec n 0) as [Hn|Hn].
  - destruct (Hno Hn) as [-> _].
    assert (Hee : e' = ex) by lia. rewrite Hee. unfold n in Hn. lia.
  - assert (He' : e' = fexp64 (Zdigits2 mx + ex)) by (unfold n in *; lia).
    apply inbetween_bounds in Hin. apply inbetween_bounds in Hx.
    pose proof (Zdigits2_nonneg mx) as Hd.
    assert (Hx2 : x < bpow (Zdigits2 mx)).
    { rewrite bpow_IZR by assumption.
      apply Rlt_le_trans with (IZR mx + 1); [lra|].
      rewrite <- plus_IZR. apply IZR_le.
      destruct (Z.eq_dec mx 0) as [->|Hne]; [simpl; lia|].
      destruct (Zdigits2_bounds mx ltac:(lia)). lia. }
    assert (Hx3 : x * bpow (ex - e') < bpow (Zdigits2 mx - n)).
    { replace (Zdigits2 mx - n)%Z with (Zdigits2 mx + (ex - e'))%Z
        by (unfold n in *; lia).
      rewrite bpow_add. apply Rmult_lt_compat_r; [apply bpow_gt_0|assumption]. }
    rewrite !fexp_eq in *.
    destruct (Z_le_gt_dec 0 (Zdigits2 mx - n)) as [Hk|Hk].
    + assert (Zdigits2 (shr_m mrs) <= Zdigits2 mx - n)%Z.
      { apply Zdigits2_le; try assumption.
        apply lt_IZR. rewrite <- bpow_IZR by assumption. lra. }
      lia.
    + assert (shr_m mrs = 0%Z).
      { assert (IZR (shr_m mrs) < 1).
        { apply Rle_lt_trans with (x * bpow (ex - e')); [lra|].
          apply Rlt_le_trans with (bpow (Zdigits2 mx - n)); [assumption|].
          rewrite <- bpow_0. apply bpow_le. lia. }
        apply lt_IZR in H. lia. }
      rewrite H. simpl Zdigits2. lia.
Qed.

(** The second shift, applied to the rounded mantissa, loses nothing. *)
Lemma shr_exact (m1 m' e' : Z) :
  (0 <= m')%Z -> (m1 = m' \/ m1 = m' + 1)%Z ->
  (fexp64 (Zdigits2 m' + e') <= e')%Z ->
  let n2 := (fexp64 (Zdigits2 m1 + e') - e')%Z in
  let mrs := fst (shr (shr_record_of_loc m1 loc_Exact) e' n2) in
  let e2 := snd (shr (shr_record_of_loc m1 loc_Exact) e' n2) in
  (0 <= shr_m mrs)%Z /\ IZR (shr_m mrs) * bpow e2 = IZR m1 * bpow e'.
Proof.
  intros Hm' Hm1 Hfit n2 mrs e2.
  assert (H0 : (0 <= m1)%Z) by lia.
  destruct (shr_inbetween m1 loc_Exact e' n2 (IZR m1) H0 eq_refl)
    as (Hm2 & Hin & He & Hno).
  fold mrs e2 in Hm2, Hin, He, Hno. split; [assumption|].
  assert (Hn2 : n2 = (Z.max (Zdigits2 m1 + e' - 53) (-1074) - e')%Z)
    by (unfold n2; rewrite fexp_eq; reflexivity).
  clearbody n2 mrs e2. rewrite fexp_eq in Hfit.
  destruct (Z_le_gt_dec n2 0) as [Hn|Hn].
  - destruct (Hno Hn) as [-> _]. replace e2 with e' by lia. reflexivity.
  - destruct (Zdigits2_succ m' Hm') as [[Hd1 Hd2] Hpow].
    assert (Hm1' : m1 = (m' + 1)%Z).
    { destruct Hm1 as [->| ->]; [exfalso; lia|reflexivity]. }
    subst m1.
    assert (Hdig : Zdigits2 (m' + 1) = (Zdigits2 m' + 1)%Z).
    { destruct (Z.eq_dec (Zdigits2 (m' + 1)) (Zdigits2 m' + 1)) as [|Hne];
        [assumption|exfalso].
      assert (Zdigits2 (m' + 1) = Zdigits2 m') by lia.
      rewrite H in Hn2. lia. }
    specialize (Hpow Hdig).
    pose proof (Zdigits2_nonneg m') as Hk.
    rewrite Hdig in Hn2.
    assert (Hk1 : (1 <= Zdigits2 m')%Z).
    { destruct (Z.eq_dec (Zdigits2 m') 0) as [Hz|]; [exfalso|lia].
      rewrite Hz in *. lia. }
    assert (Hn1 : n2 = 1%Z) by lia.
    assert (He2 : e2 = (e' + 1)%Z) by lia.
    rewrite Hpow in Hin |- *.
    replace (e' - e2)%Z with (-1)%Z in Hin by lia.
    assert (Hhalf : IZR (2 ^ Zdigits2 m') * bpow (-1)
                    = IZR (2 ^ (Zdigits2 m' - 1))).
    { replace (Zdigits2 m') with (Zdigits2 m' - 1 + 1)%Z at 1 by lia.
      rewrite Z.pow_add_r, Z.pow_1_r by lia.
      rewrite mult_IZR, bpow_m1. lra. }
    rewrite Hhalf in Hin. apply inbetween_IZR in Hin. rewrite Hin, He2.
    rewrite bpow_succ, <- Hhalf, bpow_m1. lra.
Qed.

(** The rounding step shared by every operator: the result denotes a real
    within half a unit in the last place of the located input, exactly the
    input when nothing has to be dropped, and does not overflow. *)
Lemma binary_round_aux_correct (sx : bool) (mx ex : Z) (lx : location) (x : R) :
  (0 <= mx)%Z -> inbetween mx lx x ->
  (lx = loc_Exact \/ (ex <= fexp64 (Zdigits2 mx + ex))%Z) ->
  x * bpow ex <= bpow 900 ->
  exists y,
    repr (binary_round_aux JS.prec JS.emax sx mx ex lx) sx y
    /\ Rabs (y - x * bpow ex) <= bpow (fexp64 (Zdigits2 mx + ex) - 1)
    /\ (lx = loc_Exact -> (fexp64 (Zdigits2 mx + ex) <= ex)%Z ->
        y = x * bpow ex).
Proof.
  intros Hm Hx Hcase Hv.
  unfold binary_round_aux, shr_fexp.
  pose proof (shr_inbetween mx lx ex (fexp64 (Zdigits2 mx + ex) - ex) x Hm Hx)
    as H1.
  pose proof (shr_fits mx lx ex x Hm Hx) as Hfit.
  cbv zeta in H1, Hfit.
  set (n := (fexp64 (Zdigits2 mx + ex) - ex)%Z) in *.
  destruct (shr (shr_record_of_loc mx lx) ex n) as [mrs' e'].
  cbn [fst snd] in H1, Hfit. destruct H1 as (Hm' & Hin & He' & Hno).
  destruct (round_nearest_even_spec _ _ _ Hin) as (Hm1 & Herr & Hex).
  pose proof (shr_exact _ _ e' Hm' Hm1 Hfit) as H2. cbv zeta in H2.
  set (m1 := round_nearest_even (shr_m mrs') (loc_of_shr_record mrs')) in *.
  destruct (shr (shr_record_of_loc m1 loc_Exact) e'
              (fexp64 (Zdigits2 m1 + e') - e')) as [mrs2 e2].
  cbn [fst snd] in H2. destruct H2 as [Hm2 Hval].
  set (x' := x * bpow (ex - e')) in *.
  assert (Hxv : x' * bpow e' = x * bpow ex).
  { unfold x'. rewrite Rmult_assoc, <- bpow_add. f_equal. f_equal. lia. }
  pose proof (bpow_gt_0 e') as Hbe'.
  apply Rabs_bounds in Herr.
  assert (Hzero : lx = loc_Exact -> (n <= 0)%Z -> IZR m1 = x').
  { intros Hl Hn. destruct (Hno Hn) as [Hmm Hll].
    rewrite Hl in Hll. rewrite (Hex Hll).
    rewrite Hll in Hin. exact (eq_sym Hin). }
  exists (IZR m1 * bpow e'). split; [|split].
  - destruct (shr_m mrs2) as [|p|p] eqn:Em2; [| |lia].
    + left. split; [reflexivity|]. rewrite <- Hval. lra.
    + destruct (Z.leb_spec e2 (JS.emax - JS.prec)) as [Hle|Hgt].
      * right. exists p, e2. split; [reflexivity|]. now rewrite Hval.
      * exfalso. change (JS.emax - JS.prec)%Z with 971%Z in Hgt.
        assert (Hp : 1 <= IZR (Zpos p)) by (apply IZR_le; lia).
        assert (Hb : bpow 972 <= bpow e2) by (apply bpow_le; lia).
        pose proof (bpow_gt_0 972) as Hb0.
        assert (Hy : bpow 972 <= IZR m1 * bpow e') by (rewrite <- Hval; nra).
        assert (Hm1pos : 1 <= IZR m1).
        { apply IZR_le.
          destruct (Z_le_gt_dec m1 0) as [Hneg|]; [exfalso|lia].
          apply IZR_le in Hneg. nra. }
        assert (Hy2 : IZR m1 * bpow e' <= 2 * (x * bpow ex)).
        { rewrite <- Hxv. nra. }
        assert (Hb3 : bpow 901 < bpow 972) by (apply bpow_lt; lia).
        replace 901%Z with (900 + 1)%Z in Hb3 by lia.
        rewrite bpow_succ in Hb3. lra.
  - rewrite <- Hxv.
    destruct (Z_le_gt_dec n 0) as [Hn|Hn].
    + destruct Hcase as [Hl|Hl].
      * rewrite (Hzero Hl Hn), Rminus_diag, Rabs_R0.
        apply Rlt_le, bpow_gt_0.
      * assert (Hee : e' = fexp64 (Zdigits2 mx + ex)) by (unfold n in *; lia).
        rewrite <- Hee, bpow_pred. apply Rabs_le. nra.
    + assert (Hee : e' = fexp64 (Zdigits2 mx + ex)) by (unfold n in *; lia).
      rewrite <- Hee, bpow_pred. apply Rabs_le. nra.
  - intros Hl Hfe. rewrite <- Hxv. rewrite (Hzero Hl); [reflexivity|].
    unfold n. lia.
Qed.

End Core.

Section Ops.

Local Open Scope R_scope.

Lemma roundoff_pos : 0 < roundoff.
Proof. apply bpow_gt_0. Qed.

Lemma underflow_pos : 0 < underflow.
Proof. apply bpow_gt_0. Qed.

Lemma ulp_bound (mx ex : Z) (x : R) :
  (0 <= mx)%Z -> IZR mx <= x ->
  ((0 < mx)%Z \/ (ex <= fexp64 (Zdigits2 mx + ex))%Z) ->
  bpow (fexp64 (Zdigits2 mx + ex) - 1) <= roundoff * (x * bpow ex) + underflow.
Proof.
  intros Hm Hx Hcase. rewrite fexp_eq in *.
  pose proof roundoff_pos as Hu. pose proof underflow_pos as He.
  pose proof (bpow_gt_0 ex) as Hex.
  assert (H0 : 0 <= x) by (apply Rle_trans with (IZR mx); [apply IZR_le|]; assumption).
  assert (Hxe : 0 <= x * bpow ex) by (apply Rmult_le_pos; lra).
  assert (Huxe : 0 <= roundoff * (x * bpow ex)) by (apply Rmult_le_pos; lra).
  destruct (Z_le_gt_dec (Zdigits2 mx + ex - 53) (-1074)) as [Hs|Hn].
  - replace (Z.max (Zdigits2 mx + ex - 53) (-1074) - 1)%Z with (-1075)%Z by lia.
    fold underflow. lra.
  - assert (Hpos : (0 < mx)%Z).
    { destruct Hcase as [|Hc]; [assumption|].
      destruct (Z.eq_dec mx 0) as [->|]; [simpl in *; lia|lia]. }
    replace (Z.max (Zdigits2 mx + ex - 53) (-1074) - 1)%Z
      with (-53 + ((Zdigits2 mx - 1) + ex))%Z by lia.
    rewrite !bpow_add. fold roundoff.
    destruct (Zdigits2_bounds mx Hpos) as [Hlo _].
    pose proof (Zdigits2_nonneg mx).
    assert (1 <= Zdigits2 mx)%Z.
    { destruct mx; simpl; lia. }
    rewrite (bpow_IZR (Zdigits2 mx - 1)) by lia.
    apply IZR_le in Hlo.
    assert (IZR (2 ^ (Zdigits2 mx - 1)) * bpow ex <= x * bpow ex)
      by (apply Rmult_le_compat_r; lra).
    assert (roundoff * (IZR (2 ^ (Zdigits2 mx - 1)) * bpow ex) <= roundoff * (x * bpow ex))
      by (apply Rmult_le_compat_l; lra).
    lra.
Qed.

Lemma repr_B2R (r : JS.number) (s : bool) (y : R) :
  repr r s y ->
  is_finite r = true /\ B2R r = (if s then - y else y) /\ 0 <= y.
Proof.
  intros [[-> ->]|(m & e & -> & ->)]; cbn [is_finite B2R].
  - repeat split; [destruct s; lra|lra].
  - pose proof (bpow_gt_0 e).
    assert (0 < IZR (Zpos m)) by (apply IZR_lt; lia).
    repeat split.
    + destruct s; cbn [cond_Zopp]; [rewrite opp_IZR|]; lra.
    + nra.
Qed.

(** From the located form to the standard model. *)
Lemma repr_rounds_to (r : JS.number) (s : bool) (y v : R) :
  repr r s y -> 0 <= v -> Rabs (y - v) <= roundoff * v + underflow ->
  rounds_to r (if s then - v else v).
Proof.
  intros Hr Hv Herr. destruct (repr_B2R r s y Hr) as (Hf & HB & Hy).
  split; [assumption|]. rewrite HB. apply Rabs_bounds in Herr.
  destruct s.
  - rewrite Rabs_Ropp, (Rabs_pos_eq v Hv). apply Rabs_le. lra.
  - rewrite (Rabs_pos_eq v Hv). apply Rabs_le. lra.
Qed.

Lemma B2R_finite (s : bool) (m : positive) (e : Z) :
  B2R (S754_finite s m e)
  = (if s then - (IZR (Zpos m) * bpow e) else IZR (Zpos m) * bpow e).
Proof. cbn [B2R]. destruct s; cbn [cond_Zopp]; [rewrite opp_IZR|]; lra. Qed.

Lemma rounds_to_zero (s : bool) : rounds_to (S754_zero s) 0.
Proof.
  split; [reflexivity|]. cbn [B2R]. rewrite Rminus_diag, Rabs_R0.
  pose proof underflow_pos. lra.
Qed.

Lemma mul_correct (x y : JS.number) :
  is_finite x = true -> is_finite y = true ->
  Rabs (B2R x * B2R y) <= bpow 900 ->
  rounds_to (JS.mul x y) (B2R x * B2R y).
Proof.
  intros Hx Hy Hv.
  destruct x as [sx|sx| |sx mx ex]; try discriminate;
    destruct y as [sy|sy| |sy my ey]; try discriminate;
    cbn [JS.mul SFmul];
    try (cbn [B2R]; rewrite ?Rmult_0_l, ?Rmult_0_r; apply rounds_to_zero).
  rewrite !B2R_finite in *.
  set (v := IZR (Zpos mx) * bpow ex * (IZR (Zpos my) * bpow ey)) in *.
  assert (Hv0 : 0 < v).
  { unfold v. pose proof (bpow_gt_0 ex). pose proof (bpow_gt_0 ey).
    assert (0 < IZR (Zpos mx)) by (apply IZR_lt; lia).
    assert (0 < IZR (Zpos my)) by (apply IZR_lt; lia).
    repeat apply Rmult_lt_0_compat; assumption. }
  assert (Hvv : IZR (Zpos (mx * my)) * bpow (ex + ey) = v).
  { unfold v. rewrite Pos2Z.inj_mul, mult_IZR, bpow_add. ring. }
  assert (Hsign : (if sx then - (IZR (Zpos mx) * bpow ex) else IZR (Zpos mx) * bpow ex)
                  * (if sy then - (IZR (Zpos my) * bpow ey) else IZR (Zpos my) * bpow ey)
                  = if xorb sx sy then - v else v).
  { unfold v. destruct sx, sy; cbn [xorb]; ring. }
  rewrite Hsign in *.
  assert (Hv' : v <= bpow 900).
  { destruct (xorb sx sy); [rewrite Rabs_Ropp in Hv|];
      rewrite (Rabs_pos_eq v) in Hv; lra. }
  destruct (binary_round_aux_correct (xorb sx sy) (Zpos (mx * my)) (ex + ey)
              loc_Exact (IZR (Zpos (mx * my))))
    as (y & Hr & Herr & _); [lia|reflexivity|now left|now rewrite Hvv|].
  rewrite Hvv in Herr.
  apply (repr_rounds_to _ _ y v Hr); [lra|].
  eapply Rle_trans; [exact Herr|]. rewrite <- Hvv.
  apply ulp_bound; [lia|lra|left; lia].
Qed.

Lemma Pos_iter_xO (m d : positive) :
  Zpos (Pos.iter xO m d) = (Zpos m * 2 ^ Zpos d)%Z.
Proof.
  induction d as [|d IH] using Pos.peano_ind.
  - cbn [Pos.iter]. rewrite Z.pow_1_r. lia.
  - rewrite Pos.iter_succ, Pos2Z.inj_xO, IH, Pos2Z.inj_succ.
    rewrite Z.pow_succ_r by lia. lia.
Qed.

Lemma shl_align_correct (mx : positive) (ex ex' : Z) :
  let m' := fst (shl_align mx ex ex') in
  let e' := snd (shl_align mx ex ex') in
  Zpos m' = (Zpos mx * 2 ^ (ex - e'))%Z /\ e' = Z.min ex ex'.
Proof.
  unfold shl_align. destruct (ex' - ex)%Z as [|d|d] eqn:Hd; cbn [fst snd].
  - replace (ex - ex)%Z with 0%Z by lia. rewrite Z.pow_0_r. lia.
  - replace (ex - ex)%Z with 0%Z by lia. rewrite Z.pow_0_r. lia.
  - rewrite Pos_iter_xO. replace (ex - ex')%Z with (Zpos d) by lia. lia.
Qed.

Lemma Zdigits2_shift (m k : Z) :
  (0 < m)%Z -> (0 <= k)%Z -> Zdigits2 (m * 2 ^ k) = (Zdigits2 m + k)%Z.
Proof.
  intros Hm Hk. destruct (Zdigits2_bounds m Hm) as [Hlo Hhi].
  pose proof (Zdigits2_nonneg m) as Hd.
  assert (Hd1 : (1 <= Zdigits2 m)%Z) by (destruct m; simpl; lia).
  assert (Hp : (0 < 2 ^ k)%Z) by (apply Z.pow_pos_nonneg; lia).
  assert (H1 : (Zdigits2 (m * 2 ^ k) <= Zdigits2 m + k)%Z).
  { apply Zdigits2_le; [nia|lia|]. rewrite Z.pow_add_r by lia. nia. }
  assert (H2 : (Zdigits2 m - 1 + k < Zdigits2 (m * 2 ^ k))%Z).
  { apply Zdigits2_gt; [lia|]. rewrite Z.pow_add_r by lia. nia. }
  lia.
Qed.

Lemma rounds_to_exact (r : JS.number) (v : R) :
  is_finite r = true -> B2R r = v -> rounds_to r v.
Proof.
  intros Hf <-. split; [assumption|]. rewrite Rminus_diag, Rabs_R0.
  pose proof roundoff_pos. pose proof underflow_pos. pose proof (Rabs_pos (B2R r)). nra.
Qed.

Lemma binary_round_correct (s : bool) (p : positive) (e : Z) :
  IZR (Zpos p) * bpow e <= bpow 900 ->
  exists y,
    repr (binary_round JS.prec JS.emax s p e) s y
    /\ Rabs (y - IZR (Zpos p) * bpow e) <= roundoff * (IZR (Zpos p) * bpow e) + underflow
    /\ ((fexp64 (Zdigits2 (Zpos p) + e) <= e)%Z -> y = IZR (Zpos p) * bpow e).
Proof.
  intros Hv. unfold binary_round.
  pose proof (shl_align_correct p e (fexp64 (Zpos (digits2_pos p) + e))) as H.
  cbv zeta in H.
  destruct (shl_align p e (fexp64 (Zpos (digits2_pos p) + e))) as [mz ez].
  cbn [fst snd] in H. destruct H as [Hmz Hez].
  assert (Hk : (0 <= e - ez)%Z) by lia.
  assert (Hval : IZR (Zpos mz) * bpow ez = IZR (Zpos p) * bpow e).
  { rewrite Hmz, mult_IZR, <- bpow_IZR by assumption.
    rewrite Rmult_assoc, <- bpow_add. f_equal. f_equal. lia. }
  destruct (binary_round_aux_correct s (Zpos mz) ez loc_Exact (IZR (Zpos mz)))
    as (y & Hr & Herr & Hex); [lia|reflexivity|now left|now rewrite Hval|].
  rewrite Hval in *. exists y. split; [assumption|]. split.
  - eapply Rle_trans; [exact Herr|]. rewrite <- Hval.
    apply ulp_bound; [lia|lra|left; lia].
  - intros Hfit. apply Hex; [reflexivity|].
    rewrite Hmz, Zdigits2_shift by lia.
    change (Zdigits2 (Zpos p)) with (Zpos (digits2_pos p)) in *.
    replace (Zpos (digits2_pos p) + (e - ez) + ez)%Z
      with (Zpos (digits2_pos p) + e)%Z by lia.
    lia.
Qed.

Lemma binary_normalize_correct (m e : Z) (szero : bool) :
  Rabs (IZR m * bpow e) <= bpow 900 ->
  rounds_to (binary_normalize JS.prec JS.emax m e szero) (IZR m * bpow e).
Proof.
  intros Hv. pose proof (bpow_gt_0 e) as He.
  destruct m as [|p|p]; cbn [binary_normalize].
  - rewrite Rmult_0_l. apply rounds_to_zero.
  - assert (0 < IZR (Zpos p)) by (apply IZR_lt; lia).
    rewrite Rabs_pos_eq in Hv by nra.
    destruct (binary_round_correct false p e Hv) as (y & Hr & Herr & _).
    apply (repr_rounds_to _ false y _ Hr); [nra|assumption].
  - assert (0 < IZR (Zpos p)) by (apply IZR_lt; lia).
    change (Zneg p) with (- Zpos p)%Z in *. rewrite opp_IZR in *.
    replace (- IZR (Zpos p) * bpow e) with (- (IZR (Zpos p) * bpow e)) in * by ring.
    rewrite Rabs_Ropp, Rabs_pos_eq in Hv by nra.
    destruct (binary_round_correct true p e Hv) as (y & Hr & Herr & _).
    apply (repr_rounds_to _ true y _ Hr); [nra|assumption].
Qed.

Lemma align_value (s : bool) (mx : positive) (ex ez : Z) :
  (ez <= ex)%Z ->
  IZR (cond_Zopp s (Zpos (fst (shl_align mx ex ez)))) * bpow ez
  = B2R (S754_finite s mx ex).
Proof.
  intros Hle. destruct (shl_align_correct mx ex ez) as [Hm He].
  replace (snd (shl_align mx ex ez)) with ez in Hm by lia.
  rewrite B2R_finite.
  assert (H : IZR (Zpos (fst (shl_align mx ex ez))) * bpow ez
              = IZR (Zpos mx) * bpow ex).
  { rewrite Hm, mult_IZR, <- bpow_IZR by lia.
    rewrite Rmult_assoc, <- bpow_add. f_equal. f_equal. lia. }
  destruct s; cbn [cond_Zopp]; [rewrite opp_IZR|]; lra.
Qed.

Lemma add_correct (x y : JS.number) :
  is_finite x = true -> is_finite y = true ->
  Rabs (B2R x + B2R y) <= bpow 900 ->
  rounds_to (JS.add x y) (B2R x + B2R y).
Proof.
  intros Hx Hy Hv.
  destruct x as [sx|sx| |sx mx ex]; try discriminate;
    destruct y as [sy|sy| |sy my ey]; try discriminate;
    cbn [JS.add SFadd].
  - cbn [B2R]. rewrite Rplus_0_l.
    destruct sx, sy; apply rounds_to_zero.
  - apply rounds_to_exact; [reflexivity|]. cbn [B2R]. lra.
  - apply rounds_to_exact; [reflexivity|]. cbn [B2R]. lra.
  - rewrite <- (align_value sx mx ex (Z.min ex ey)) in * by lia.
    rewrite <- (align_value sy my ey (Z.min ex ey)) in * by lia.
    rewrite <- Rmult_plus_distr_r, <- plus_IZR in *.
    now apply binary_normalize_correct.
Qed.

Lemma sub_correct (x y : JS.number) :
  is_finite x = true -> is_finite y = true ->
  Rabs (B2R x - B2R y) <= bpow 900 ->
  rounds_to (JS.sub x y) (B2R x - B2R y).
Proof.
  intros Hx Hy Hv.
  destruct x as [sx|sx| |sx mx ex]; try discriminate;
    destruct y as [sy|sy| |sy my ey]; try discriminate;
    cbn [JS.sub SFsub].
  - cbn [B2R]. rewrite Rminus_diag.
    destruct sx, sy; apply rounds_to_zero.
  - apply rounds_to_exact; [reflexivity|]. rewrite !B2R_finite. cbn [B2R].
    destruct sy; cbn [negb]; lra.
  - apply rounds_to_exact; [reflexivity|]. cbn [B2R]. lra.
  - rewrite <- (align_value sx mx ex (Z.min ex ey)) in * by lia.
    rewrite <- (align_value sy my ey (Z.min ex ey)) in * by lia.
    rewrite <- Rmult_minus_distr_r, <- minus_IZR in *.
    now apply binary_normalize_correct.
Qed.

Lemma frac_half (a b : R) :
  0 < b ->
  (2 * a < b -> a / b < / 2)
  /\ (2 * a = b -> a / b = / 2)
  /\ (b < 2 * a -> / 2 < a / b)
  /\ (0 < a -> 0 < a / b)
  /\ (a < b -> a / b < 1).
Proof.
  intros Hb. assert (Ht : 0 < / b) by now apply Rinv_0_lt_compat.
  assert (Hbt : b * / b = 1) by (apply Rinv_r; lra).
  unfold Rdiv. repeat split; intros H; nra.
Qed.

Lemma new_location_inbetween (m2 q r : Z) :
  (0 < m2)%Z -> (0 <= r < m2)%Z ->
  inbetween q (new_location m2 r) (IZR q + IZR r / IZR m2).
Proof.
  intros Hm Hr.
  assert (Hb : 0 < IZR m2) by (apply IZR_lt; lia).
  destruct (frac_half (IZR r) (IZR m2) Hb) as (Hlt & Heq & Hgt & Hpos & Hone).
  assert (Hr1 : IZR r < IZR m2) by (apply IZR_lt; lia).
  unfold new_location.
  destruct (Z.even m2) eqn:Hev;
    [unfold new_location_even|unfold new_location_odd];
    (destruct (Z.eqb_spec r 0) as [->|Hne];
     [cbn [inbetween]; unfold Rdiv; lra|]);
    assert (Hr0 : 0 < IZR r) by (apply IZR_lt; lia).
  - destruct (Z.compare_spec (2 * r) m2) as [Hc|Hc|Hc]; cbn [inbetween].
    + rewrite Heq; [lra|]. rewrite <- Hc, mult_IZR. lra.
    + assert (2 * IZR r < IZR m2)
        by (rewrite <- mult_IZR; apply IZR_lt; assumption).
      specialize (Hlt H). specialize (Hpos Hr0). lra.
    + assert (IZR m2 < 2 * IZR r)
        by (rewrite <- mult_IZR; apply IZR_lt; assumption).
      specialize (Hgt H). specialize (Hone Hr1). lra.
  - assert (Hodd : Z.odd m2 = true) by (rewrite <- Z.negb_even, Hev; reflexivity).
    apply Z.odd_spec in Hodd. destruct Hodd as [k Hk].
    destruct (Z.compare_spec (2 * r + 1) m2) as [Hc|Hc|Hc]; cbn [inbetween].
    + assert (2 * IZR r < IZR m2)
        by (rewrite <- mult_IZR; apply IZR_lt; lia).
      specialize (Hlt H). specialize (Hpos Hr0). lra.
    + assert (2 * IZR r < IZR m2)
        by (rewrite <- mult_IZR; apply IZR_lt; lia).
      specialize (Hlt H). specialize (Hpos Hr0). lra.
    + assert (IZR m2 < 2 * IZR r)
        by (rewrite <- mult_IZR; apply IZR_lt; lia).
      specialize (Hgt H). specialize (Hone Hr1). lra.
Qed.

(** The quotient mantissa the division hands to the rounding step, its
    location and the digits it has. *)
Lemma SFdiv_core_binary_correct (mx my : positive) (ex ey : Z) :
  let '(q, e', l) :=
    SFdiv_core_binary JS.prec JS.emax (Zpos mx) ex (Zpos my) ey in
  exists x : R,
    (0 <= q)%Z /\ inbetween q l x
    /\ x * bpow e' = IZR (Zpos mx) * bpow ex / (IZR (Zpos my) * bpow ey)
    /\ (e' <= fexp64 (Zdigits2 q + e'))%Z.
Proof.
  unfold SFdiv_core_binary.
  set (d1 := Zdigits2 (Zpos mx)). set (d2 := Zdigits2 (Zpos my)).
  set (e' := Z.min (fexp64 (d1 + ex - (d2 + ey))) (ex - ey)).
  assert (He' : e' = Z.min (Z.max (d1 + ex - (d2 + ey) - 53) (-1074)) (ex - ey))
    by (unfold e'; rewrite fexp_eq; reflexivity).
  clearbody e'.
  set (s := (ex - ey - e')%Z).
  assert (Hs : (0 <= s)%Z) by (unfold s; lia).
  set (m' := match s with
             | Zpos _ => Z.shiftl (Zpos mx) s
             | Z0 => Zpos mx
             | Zneg _ => 0%Z
             end).
  assert (Hm' : m' = (Zpos mx * 2 ^ s)%Z).
  { unfold m'. destruct s as [|p|p]; [rewrite Z.pow_0_r; lia| |lia].
    apply Z.shiftl_mul_pow2. lia. }
  clearbody m'.
  pose proof (Z_div_mod m' (Zpos my) ltac:(lia)) as Hdiv.
  destruct (Z.div_eucl m' (Zpos my)) as [q r]. destruct Hdiv as [Hqr Hr].
  assert (Hp : (0 < 2 ^ s)%Z) by (apply Z.pow_pos_nonneg; lia).
  assert (Hq : (0 <= q)%Z) by nia.
  exists (IZR q + IZR r / IZR (Zpos my)).
  assert (Hy : 0 < IZR (Zpos my)) by (apply IZR_lt; lia).
  pose proof (bpow_gt_0 ey) as Hbey.
  split; [assumption|]. split; [apply new_location_inbetween; lia|]. split.
  - replace (IZR q + IZR r / IZR (Zpos my)) with (IZR m' / IZR (Zpos my)).
    + rewrite Hm', mult_IZR, <- bpow_IZR by assumption.
      assert (Hbex : bpow ex = bpow s * bpow e' * bpow ey).
      { rewrite <- !bpow_add. f_equal. unfold s. lia. }
      rewrite Hbex. field. split; lra.
    + rewrite Hqr, plus_IZR, mult_IZR. field. lra.
  - rewrite fexp_eq.
    destruct (Z_le_gt_dec e' (-1074)) as [Hsmall|Hbig]; [lia|].
    assert (Hs2 : (53 - d1 + d2 <= s)%Z) by (unfold s; lia).
    destruct (Zdigits2_bounds (Zpos mx) ltac:(lia)) as [Hlo1 _].
    destruct (Zdigits2_bounds (Zpos my) ltac:(lia)) as [_ Hhi2].
    fold d1 in Hlo1. fold d2 in Hhi2.
    assert (Hd1 : (1 <= d1)%Z) by (unfold d1; simpl; lia).
    assert (Hd2 : (1 <= d2)%Z) by (unfold d2; simpl; lia).
    assert (Hpow : (2 ^ 52 * 2 ^ d2 <= 2 ^ (d1 - 1) * 2 ^ s)%Z).
    { rewrite <- !Z.pow_add_r by lia. apply Z.pow_le_mono_r; lia. }
    assert (Hq52 : (2 ^ 52 <= q)%Z).
    { assert (H52 : (0 < 2 ^ 52)%Z) by (apply Z.pow_pos_nonneg; lia).
      assert (2 ^ 52 * Zpos my < Zpos my * q + Zpos my)%Z by nia.
      nia. }
    pose proof (Zdigits2_gt q 52 ltac:(lia) Hq52). lia.
Qed.

Lemma div_correct (x : JS.number) (sy : bool) (my : positive) (ey : Z) :
  is_finite x = true ->
  Rabs (B2R x / B2R (S754_finite sy my ey)) <= bpow 900 ->
  rounds_to (JS.div x (S754_finite sy my ey))
            (B2R x / B2R (S754_finite sy my ey)).
Proof.
  intros Hx Hv.
  destruct x as [sx|sx| |sx mx ex]; try discriminate; cbn [JS.div SFdiv].
  - cbn [B2R]. unfold Rdiv. rewrite Rmult_0_l. apply rounds_to_zero.
  - pose proof (SFdiv_core_binary_correct mx my ex ey) as H.
    destruct (SFdiv_core_binary JS.prec JS.emax (Zpos mx) ex (Zpos my) ey)
      as [[q e'] l].
    destruct H as (xr & Hq & Hin & Hval & Hdig).
    rewrite !B2R_finite in *.
    set (X := IZR (Zpos mx) * bpow ex) in *.
    set (Y := IZR (Zpos my) * bpow ey) in *.
    assert (HX : 0 < X).
    { unfold X. apply Rmult_lt_0_compat; [apply IZR_lt; lia|apply bpow_gt_0]. }
    assert (HY : 0 < Y).
    { unfold Y. apply Rmult_lt_0_compat; [apply IZR_lt; lia|apply bpow_gt_0]. }
    assert (HXY : 0 < X / Y) by (apply Rdiv_lt_0_compat; assumption).
    assert (Hsign : (if sx then - X else X) / (if sy then - Y else Y)
                    = if xorb sx sy then - (X / Y) else X / Y).
    { destruct sx, sy; cbn [xorb]; field; lra. }
    rewrite Hsign in *.
    assert (Hv' : X / Y <= bpow 900).
    { destruct (xorb sx sy); [rewrite Rabs_Ropp in Hv|];
        rewrite (Rabs_pos_eq (X / Y)) in Hv; lra. }
    destruct (binary_round_aux_correct (xorb sx sy) q e' l xr)
      as (y & Hr & Herr & _); [assumption|assumption|now right|now rewrite Hval|].
    rewrite Hval in Herr.
    apply (repr_rounds_to _ _ y (X / Y) Hr); [lra|].
    eapply Rle_trans; [exact Herr|]. rewrite <- Hval.
    apply ulp_bound; [assumption| |now right].
    apply inbetween_bounds in Hin. lra.
Qed.

End Ops.

Section Integers.

Local Open Scope R_scope.

Lemma integer_value_finite (s : bool) (m : positive) (e k : Z) :
  IZR (Zpos m) * bpow e = IZR k ->
  integer_value (S754_finite s m e) = Some (cond_Zopp s k).
Proof.
  intros H. cbn [integer_value].
  destruct (Z.leb_spec 0 e) as [He|He].
  - rewrite bpow_IZR, <- mult_IZR in H by assumption.
    apply eq_IZR in H. now rewrite H.
  - assert (Hk : Zpos m = (k * 2 ^ (- e))%Z).
    { apply eq_IZR. rewrite mult_IZR, <- bpow_IZR by lia.
      rewrite <- H, Rmult_assoc, <- bpow_add.
      replace (e + - e)%Z with 0%Z by lia. rewrite bpow_0. lra. }
    assert (Hp : (0 < 2 ^ (- e))%Z) by (apply Z.pow_pos_nonneg; lia).
    rewrite Hk, Z.mod_mul, Z.div_mul by lia. reflexivity.
Qed.

(** Integers below 2^53 in magnitude are Numbers. *)
Lemma of_Z_exact (n : Z) :
  n <> 0%Z -> (Z.abs n < 2 ^ 53)%Z ->
  exists m e,
    JS.of_Z n = S754_finite (n <? 0)%Z m e
    /\ IZR (Zpos m) * bpow e = IZR (Z.abs n).
Proof.
  intros Hn Hlt. unfold JS.of_Z.
  assert (Hgen : forall (s : bool) (p : positive),
            (Zpos p < 2 ^ 53)%Z ->
            exists m e, binary_round JS.prec JS.emax s p 0 = S754_finite s m e
                        /\ IZR (Zpos m) * bpow e = IZR (Zpos p)).
  { intros s p Hp.
    assert (Hmag : IZR (Zpos p) * bpow 0 <= bpow 900).
    { rewrite bpow_0, Rmult_1_r. apply Rle_trans with (bpow 53).
      - rewrite bpow_IZR by lia. apply IZR_le. lia.
      - apply bpow_le. lia. }
    destruct (binary_round_correct s p 0 Hmag) as (y & Hr & _ & Hex).
    rewrite bpow_0, Rmult_1_r in Hex.
    assert (Hy : y = IZR (Zpos p)).
    { apply Hex. rewrite fexp_eq.
      assert (Zdigits2 (Zpos p) <= 53)%Z by (apply Zdigits2_le; lia). lia. }
    destruct Hr as [[_ H0]|(m & e & Hm & Hv)].
    - exfalso. assert (0 < IZR (Zpos p)) by (apply IZR_lt; lia). lra.
    - exists m, e. split; [assumption|]. now rewrite <- Hv. }
  destruct n as [|p|p]; [contradiction| |]; cbn [binary_normalize Z.ltb Z.compare Z.abs].
  - apply Hgen. exact Hlt.
  - apply Hgen. exact Hlt.
Qed.

Lemma integer_value_of_Z (n : Z) :
  (Z.abs n < 2 ^ 53)%Z -> integer_value (JS.of_Z n) = Some n.
Proof.
  intros Hlt. destruct (Z.eq_dec n 0) as [->|Hn]; [reflexivity|].
  destruct (of_Z_exact n Hn Hlt) as (m & e & -> & Hv).
  rewrite (integer_value_finite _ m e _ Hv).
  f_equal. destruct n; cbn; try reflexivity; contradiction.
Qed.

Lemma B2R_of_Z (n : Z) :
  (Z.abs n < 2 ^ 53)%Z -> is_finite (JS.of_Z n) = true /\ B2R (JS.of_Z n) = IZR n.
Proof.
  intros Hlt. destruct (Z.eq_dec n 0) as [->|Hn]; [split; reflexivity|].
  destruct (of_Z_exact n Hn Hlt) as (m & e & -> & Hv).
  split; [reflexivity|]. rewrite B2R_finite, Hv.
  destruct n as [|p|p]; [contradiction| |]; cbn [Z.ltb Z.compare Z.abs].
  - reflexivity.
  - change (Zneg p) with (- Zpos p)%Z. now rewrite opp_IZR.
Qed.

Lemma Math_round_correct (x : JS.number) :
  is_finite x = true -> Rabs (B2R x) <= bpow 52 ->
  exists n,
    integer_value (JS.Math_round x) = Some n
    /\ IZR n - / 2 <= B2R x < IZR n + / 2.
Proof.
  intros Hf Hmag. destruct x as [s|s| |s m e]; try discriminate.
  - exists 0%Z. split; [reflexivity|]. cbn [B2R]. lra.
  - cbn [JS.Math_round]. destruct (Z.leb_spec 0 e) as [He|He].
    + exists (cond_Zopp s (Zpos m * 2 ^ e)). split.
      * cbn [integer_value]. destruct (Z.leb_spec 0 e); [reflexivity|lia].
      * cbn [B2R]. rewrite bpow_IZR, <- mult_IZR by assumption.
        replace (cond_Zopp s (Zpos m) * 2 ^ e)%Z
          with (cond_Zopp s (Zpos m * 2 ^ e)) by (destruct s; cbn [cond_Zopp]; ring).
        lra.
    + set (k := (- e)%Z). assert (Hk : (0 < k)%Z) by (unfold k; lia).
      set (a := cond_Zopp s (Zpos m)).
      set (h := (2 ^ (k - 1))%Z).
      assert (Hh : (0 < h)%Z) by (apply Z.pow_pos_nonneg; lia).
      assert (H2h : (2 ^ k = 2 * h)%Z).
      { unfold h. rewrite <- Z.pow_succ_r by lia. f_equal. lia. }
      assert (Hn : JS.round_Z s m e = ((a + h) / 2 ^ k)%Z).
      { unfold JS.round_Z. fold a k.
        replace (k - 1)%Z with (k - 1)%Z by lia.
        replace (- e - 1)%Z with (k - 1)%Z by (unfold k; lia). fold h.
        apply Z.shiftr_div_pow2. lia. }
      set (n := JS.round_Z s m e) in *.
      pose proof (Z.div_mod (a + h) (2 ^ k) ltac:(lia)) as Hdm.
      pose proof (Z.mod_pos_bound (a + h) (2 ^ k) ltac:(lia)) as Hr.
      rewrite <- Hn in Hdm. set (r := ((a + h) mod 2 ^ k)%Z) in *.
      assert (HX : B2R (S754_finite s m e) * IZR (2 * h) = IZR a).
      { cbn [B2R]. fold a. rewrite <- H2h, <- bpow_IZR by lia.
        rewrite Rmult_assoc, <- bpow_add.
        replace (e + k)%Z with 0%Z by (unfold k; lia).
        rewrite bpow_0. lra. }
      set (X := B2R (S754_finite s m e)) in *.
      assert (HH : 0 < IZR h) by (apply IZR_lt; lia).
      rewrite H2h in Hdm, Hr.
      assert (Hdm' : IZR a + IZR h = 2 * IZR h * IZR n + IZR r).
      { rewrite <- plus_IZR, Hdm, plus_IZR, !mult_IZR. lra. }
      assert (Hr0 : 0 <= IZR r) by (apply IZR_le; lia).
      assert (Hr1 : IZR r < 2 * IZR h)
        by (rewrite <- mult_IZR; apply IZR_lt; lia).
      rewrite mult_IZR in HX.
      assert (Hlo : IZR n - / 2 <= X) by nra.
      assert (Hhi : X < IZR n + / 2) by nra.
      exists n. split; [|lra].
      destruct (Z.eqb_spec n 0) as [->|Hne]; [reflexivity|].
      apply integer_value_of_Z.
      apply Rabs_bounds in Hmag. rewrite (bpow_IZR 52) in Hmag by lia.
      assert (IZR n <= IZR (2 ^ 52) + / 2) by lra.
      assert (- IZR (2 ^ 52) - / 2 < IZR n) by lra.
      assert (n < 2 ^ 52 + 1)%Z.
      { apply lt_IZR. rewrite plus_IZR. lra. }
      assert (- 2 ^ 52 - 1 < n)%Z.
      { apply lt_IZR. rewrite minus_IZR, opp_IZR. lra. }
      lia.
Qed.

End Integers.

Section Compare.

Local Open Scope R_scope.

Lemma bounded_digits (m : positive) (e : Z) :
  SpecFloat.bounded JS.prec JS.emax m e = true ->
  (Zpos m < 2 ^ 53)%Z /\ ((-1074 <= e)%Z) /\ ((-1074 < e)%Z -> (2 ^ 52 <= Zpos m)%Z).
Proof.
  unfold SpecFloat.bounded, canonical_mantissa. intros H.
  apply andb_prop in H. destruct H as [Hc _].
  apply Z.eqb_eq in Hc. rewrite fexp_eq in Hc.
  destruct (digits2_pos_bounds m) as [Hlo Hhi].
  assert (Hd : (1 <= Zpos (digits2_pos m))%Z) by lia.
  repeat split.
  - assert (Zpos (digits2_pos m) <= 53)%Z by lia.
    assert (2 ^ Zpos (digits2_pos m) <= 2 ^ 53)%Z by (apply Z.pow_le_mono_r; lia).
    lia.
  - lia.
  - intros He. assert (Zpos (digits2_pos m) = 53)%Z by lia.
    rewrite H in Hlo. exact Hlo.
Qed.

Lemma le_finite_pos (m1 m2 : positive) (e1 e2 : Z) :
  SpecFloat.bounded JS.prec JS.emax m1 e1 = true ->
  SpecFloat.bounded JS.prec JS.emax m2 e2 = true ->
  JS.le (S754_finite false m1 e1) (S754_finite false m2 e2) = true ->
  IZR (Zpos m1) * bpow e1 <= IZR (Zpos m2) * bpow e2.
Proof.
  intros H1 H2. unfold JS.le, SFleb. cbn [SFcompare].
  destruct (bounded_digits m1 e1 H1) as (Hm1 & He1 & _).
  destruct (bounded_digits m2 e2 H2) as (_ & _ & Hm2).
  destruct (Z.compare_spec e1 e2) as [<-|Hlt|Hgt]; [| |discriminate].
  - change (Pos.compare_cont Eq m1 m2) with (Pos.compare m1 m2).
    destruct (Pos.compare_spec m1 m2) as [->|Hc|Hc]; intros Hle.
    + lra.
    + apply Rmult_le_compat_r; [apply Rlt_le, bpow_gt_0|apply IZR_le; lia].
    + discriminate Hle.
  - intros _. specialize (Hm2 ltac:(lia)).
    apply Rle_trans with (bpow (53 + e1)).
    + rewrite bpow_add, (bpow_IZR 53) by lia.
      apply Rmult_le_compat_r; [apply Rlt_le, bpow_gt_0|apply IZR_le; lia].
    + apply Rle_trans with (bpow (52 + e2)); [apply bpow_le; lia|].
      rewrite bpow_add, (bpow_IZR 52) by lia.
      apply Rmult_le_compat_r; [apply Rlt_le, bpow_gt_0|apply IZR_le; lia].
Qed.

Lemma le_le_finite (ml mh : positive) (el eh : Z) (x : JS.number) :
  SpecFloat.bounded JS.prec JS.emax ml el = true ->
  SpecFloat.bounded JS.prec JS.emax mh eh = true ->
  JS.wf x = true ->
  JS.le (S754_finite false ml el) x = true ->
  JS.le x (S754_finite false mh eh) = true ->
  is_finite x = true
  /\ IZR (Zpos ml) * bpow el <= B2R x <= IZR (Zpos mh) * bpow eh.
Proof.
  intros Hl Hh Hx H1 H2.
  destruct x as [s|[|]| |[|] m e]; try discriminate.
  split; [reflexivity|]. cbn [B2R cond_Zopp].
  split; apply le_finite_pos; assumption.
Qed.

Lemma between_correct (lo hi : Z) (x : JS.number) :
  (0 < lo)%Z -> (0 < hi)%Z -> (hi < 2 ^ 53)%Z -> (lo < 2 ^ 53)%Z ->
  JS.wf (JS.of_Z lo) = true -> JS.wf (JS.of_Z hi) = true ->
  between lo hi x = true ->
  is_finite x = true /\ IZR lo <= B2R x <= IZR hi.
Proof.
  intros Hlo Hhi Hhi2 Hlo2 Hwl Hwh H. unfold between in H.
  apply andb_prop in H. destruct H as [H H2].
  apply andb_prop in H. destruct H as [Hx H1].
  destruct (of_Z_exact lo ltac:(lia) ltac:(lia)) as (ml & el & El & Vl).
  destruct (of_Z_exact hi ltac:(lia) ltac:(lia)) as (mh & eh & Eh & Vh).
  rewrite El in *. rewrite Eh in *.
  replace (lo <? 0)%Z with false in * by (symmetry; apply Z.ltb_ge; lia).
  replace (hi <? 0)%Z with false in * by (symmetry; apply Z.ltb_ge; lia).
  rewrite Z.abs_eq in Vl, Vh by lia.
  rewrite <- Vl, <- Vh.
  apply le_le_finite; assumption.
Qed.

Lemma integer_value_B2R (x : JS.number) (a : Z) :
  integer_value x = Some a -> is_finite x = true /\ B2R x = IZR a.
Proof.
  destruct x as [s|s| |s m e]; cbn [integer_value]; try discriminate.
  - intros [= <-]. split; reflexivity.
  - destruct (Z.leb_spec 0 e) as [He|He].
    + intros [= <-]. split; [reflexivity|]. cbn [B2R].
      rewrite bpow_IZR, <- mult_IZR by assumption.
      replace (cond_Zopp s (Zpos m) * 2 ^ e)%Z
        with (cond_Zopp s (Zpos m * 2 ^ e))
        by (destruct s; cbn [cond_Zopp]; ring).
      reflexivity.
    + destruct (Z.eqb_spec (Zpos m mod 2 ^ (- e)) 0) as [Hmod|]; [|discriminate].
      intros [= <-]. split; [reflexivity|]. cbn [B2R].
      assert (Hp : (0 < 2 ^ (- e))%Z) by (apply Z.pow_pos_nonneg; lia).
      pose proof (Z.div_mod (Zpos m) (2 ^ (- e)) ltac:(lia)) as Hdm.
      rewrite Hmod, Z.add_0_r in Hdm.
      set (q := (Zpos m / 2 ^ (- e))%Z) in *.
      assert (Hv : IZR (Zpos m) * bpow e = IZR q).
      { rewrite Hdm, mult_IZR, <- bpow_IZR by lia.
        rewrite (Rmult_comm (bpow (- e))), Rmult_assoc, <- bpow_add.
        replace (- e + e)%Z with 0%Z by lia. rewrite bpow_0. lra. }
      destruct s; cbn [cond_Zopp].
      * change (Zneg m) with (- Zpos m)%Z. rewrite !opp_IZR. lra.
      * exact Hv.
Qed.

End Compare.

Section Canonical.

Local Open Scope R_scope.

Lemma Zdigits2_pow2 (k : Z) : (0 <= k)%Z -> Zdigits2 (2 ^ k) = (k + 1)%Z.
Proof.
  intros Hk.
  assert (H1 : (Zdigits2 (2 ^ k) <= k + 1)%Z).
  { apply Zdigits2_le; [apply Z.pow_nonneg; lia|lia|].
    apply Z.pow_lt_mono_r; lia. }
  assert (H2 : (k < Zdigits2 (2 ^ k))%Z) by (apply Zdigits2_gt; lia).
  lia.
Qed.

Lemma Zdigits2_ge_1 (m : Z) : (0 < m)%Z -> (1 <= Zdigits2 m)%Z.
Proof. destruct m as [|p|p]; intros H; try lia. cbn [Zdigits2]. lia. Qed.

Lemma Zdigits2_mono (a b : Z) : (0 <= a <= b)%Z -> (Zdigits2 a <= Zdigits2 b)%Z.
Proof.
  intros [Ha Hab]. destruct (Z.eq_dec a 0) as [->|Hne].
  - apply Zdigits2_nonneg.
  - destruct (Zdigits2_bounds a ltac:(lia)) as [Hlo _].
    pose proof (Zdigits2_nonneg a).
    assert (1 <= Zdigits2 a)%Z by (apply Zdigits2_ge_1; lia).
    assert (Zdigits2 a - 1 < Zdigits2 b)%Z by (apply Zdigits2_gt; lia).
    lia.
Qed.

(** When the first shift drops no digit that is needed, the shifted
    mantissa is canonical for its exponent. *)
Lemma shr_canonical (mx : Z) (lx : location) (ex : Z) (x : R) :
  (0 <= mx)%Z -> inbetween mx lx x ->
  (ex <= fexp64 (Zdigits2 mx + ex))%Z ->
  let n := (fexp64 (Zdigits2 mx + ex) - ex)%Z in
  let mrs := fst (shr (shr_record_of_loc mx lx) ex n) in
  let e' := snd (shr (shr_record_of_loc mx lx) ex n) in
  fexp64 (Zdigits2 (shr_m mrs) + e') = e'.
Proof.
  intros Hm Hx Hn n mrs e'.
  pose proof (shr_fits mx lx ex x Hm Hx) as Hfit. cbv zeta in Hfit.
  fold n mrs e' in Hfit.
  destruct (shr_inbetween mx lx ex n x Hm Hx) as (Hm' & Hin & He & Hno).
  fold mrs e' in Hm', Hin, He, Hno.
  assert (Hn2 : n = (Z.max (Zdigits2 mx + ex - 53) (-1074) - ex)%Z)
    by (unfold n; rewrite fexp_eq; reflexivity).
  clearbody n mrs e'. rewrite fexp_eq in Hn. rewrite fexp_eq in Hfit. rewrite fexp_eq.
  destruct (Z_le_gt_dec e' (-1074)) as [Hs|Hb]; [lia|].
  assert (He' : e' = (Zdigits2 mx + ex - 53)%Z) by lia.
  assert (Hpos : (0 < mx)%Z).
  { destruct (Z.eq_dec mx 0) as [E|]; [|lia]. exfalso. subst mx.
    change (Zdigits2 0) with 0%Z in *. lia. }
  destruct (Zdigits2_bounds mx Hpos) as [Hlo _].
  assert (Hd1 : (1 <= Zdigits2 mx)%Z) by (apply Zdigits2_ge_1; lia).
  apply inbetween_bounds in Hin. apply inbetween_bounds in Hx.
  assert (H52 : bpow 52 <= x * bpow (ex - e')).
  { replace 52%Z with ((Zdigits2 mx - 1) + (ex - e'))%Z by lia.
    rewrite bpow_add. apply Rmult_le_compat_r; [apply Rlt_le, bpow_gt_0|].
    rewrite bpow_IZR by lia.
    apply Rle_trans with (IZR mx); [apply IZR_le; assumption|lra]. }
  assert (Hm52 : (2 ^ 52 <= shr_m mrs)%Z).
  { assert (IZR (2 ^ 52) - 1 < IZR (shr_m mrs)).
    { rewrite <- bpow_IZR by lia. lra. }
    rewrite <- minus_IZR in H. apply lt_IZR in H. lia. }
  pose proof (Zdigits2_gt _ 52 ltac:(lia) Hm52). lia.
Qed.

(** The second shift keeps a canonical mantissa canonical. *)
Lemma shr_exact_canonical (m1 m' e' : Z) :
  (0 <= m')%Z -> (m1 = m' \/ m1 = m' + 1)%Z ->
  fexp64 (Zdigits2 m' + e') = e' ->
  let n2 := (fexp64 (Zdigits2 m1 + e') - e')%Z in
  let mrs := fst (shr (shr_record_of_loc m1 loc_Exact) e' n2) in
  let e2 := snd (shr (shr_record_of_loc m1 loc_Exact) e' n2) in
  fexp64 (Zdigits2 (shr_m mrs) + e2) = e2.
Proof.
  intros Hm' Hm1 Hfit n2 mrs e2.
  assert (H0 : (0 <= m1)%Z) by lia.
  destruct (shr_inbetween m1 loc_Exact e' n2 (IZR m1) H0 eq_refl)
    as (Hm2 & Hin & He & Hno).
  fold mrs e2 in Hm2, Hin, He, Hno.
  assert (Hn2 : n2 = (Z.max (Zdigits2 m1 + e' - 53) (-1074) - e')%Z)
    by (unfold n2; rewrite fexp_eq; reflexivity).
  clearbody n2 mrs e2. rewrite fexp_eq in Hfit. rewrite fexp_eq.
  destruct (Zdigits2_succ m' Hm') as [[Hd1 Hd2] Hpow].
  assert (Hmono : (Zdigits2 m' <= Zdigits2 m1 <= Zdigits2 m' + 1)%Z).
  { destruct Hm1 as [->| ->]; lia. }
  destruct (Z_le_gt_dec n2 0) as [Hn|Hn].
  - destruct (Hno Hn) as [-> _]. replace e2 with e' by lia. lia.
  - assert (Hdig : Zdigits2 m1 = (Zdigits2 m' + 1)%Z) by lia.
    assert (Hm1' : m1 = (m' + 1)%Z).
    { destruct Hm1 as [->|]; [lia|assumption]. }
    subst m1. specialize (Hpow Hdig).
    pose proof (Zdigits2_nonneg m') as Hk.
    assert (Hk1 : (1 <= Zdigits2 m')%Z).
    { destruct (Z.eq_dec (Zdigits2 m') 0) as [Hz|]; [exfalso|lia].
      rewrite Hz in *. lia. }
    assert (He2 : e2 = (e' + 1)%Z) by lia.
    rewrite Hpow in Hin. replace (e' - e2)%Z with (-1)%Z in Hin by lia.
    assert (Hhalf : IZR (2 ^ Zdigits2 m') * bpow (-1)
                    = IZR (2 ^ (Zdigits2 m' - 1))).
    { replace (Zdigits2 m') with (Zdigits2 m' - 1 + 1)%Z at 1 by lia.
      rewrite Z.pow_add_r, Z.pow_1_r by lia.
      rewrite mult_IZR, bpow_m1. lra. }
    rewrite Hhalf in Hin. apply inbetween_IZR in Hin.
    rewrite Hin, Zdigits2_pow2 by lia. lia.
Qed.

(** The rounding step returns a well-formed Number. *)
Lemma binary_round_aux_valid (sx : bool) (mx ex : Z) (lx : location) (x : R) :
  (0 <= mx)%Z -> inbetween mx lx x ->
  (ex <= fexp64 (Zdigits2 mx + ex))%Z ->
  JS.wf (binary_round_aux JS.prec JS.emax sx mx ex lx) = true.
Proof.
  intros Hm Hx Hn. unfold binary_round_aux, shr_fexp.
  pose proof (shr_inbetween mx lx ex (fexp64 (Zdigits2 mx + ex) - ex) x Hm Hx)
    as H1.
  pose proof (shr_canonical mx lx ex x Hm Hx Hn) as Hcan.
  cbv zeta in H1, Hcan.
  destruct (shr (shr_record_of_loc mx lx) ex
              (fexp64 (Zdigits2 mx + ex) - ex)) as [mrs' e'].
  cbn [fst snd] in H1, Hcan. destruct H1 as (Hm' & Hin & _ & _).
  destruct (round_nearest_even_spec _ _ _ Hin) as (Hm1 & _ & _).
  pose proof (shr_exact_canonical _ _ e' Hm' Hm1 Hcan) as H2. cbv zeta in H2.
  destruct (shr (shr_record_of_loc
                   (round_nearest_even (shr_m mrs') (loc_of_shr_record mrs'))
                   loc_Exact) e'
              (fexp64 (Zdigits2 (round_nearest_even (shr_m mrs')
                                   (loc_of_shr_record mrs')) + e') - e'))
    as [mrs2 e2].
  cbn [fst snd] in H2.
  destruct (shr_m mrs2) as [|p|p]; [reflexivity| |reflexivity].
  destruct (Z.leb_spec e2 (JS.emax - JS.prec)) as [Hle|Hgt]; [|reflexivity].
  unfold JS.wf. cbn [valid_binary]. unfold SpecFloat.bounded, canonical_mantissa.
  change (Zdigits2 (Zpos p)) with (Zpos (digits2_pos p)) in H2.
  rewrite H2, Z.eqb_refl. cbn [andb]. now apply Z.leb_le.
Qed.

Lemma bounded_canonical (m : positive) (e : Z) :
  SpecFloat.bounded JS.prec JS.emax m e = true ->
  (Zdigits2 (Zpos m) = 53 \/ e = -1074)%Z.
Proof.
  unfold SpecFloat.bounded, canonical_mantissa. intros H.
  apply andb_prop in H. destruct H as [Hc _]. apply Z.eqb_eq in Hc.
  rewrite fexp_eq in Hc. cbn [Zdigits2]. lia.
Qed.

(** The product of two well-formed Numbers is well formed. *)
Lemma mul_wf (x y : JS.number) :
  JS.wf x = true -> JS.wf y = true -> JS.wf (JS.mul x y) = true.
Proof.
  intros Hx Hy.
  destruct x as [sx|sx| |sx mx ex]; destruct y as [sy|sy| |sy my ey];
    try reflexivity.
  cbn [JS.mul SFmul].
  apply (binary_round_aux_valid _ _ _ loc_Exact (IZR (Zpos (mx * my))));
    [lia|reflexivity|].
  unfold JS.wf in Hx, Hy. cbn [valid_binary] in Hx, Hy.
  destruct (Zdigits2_bounds (Zpos mx) ltac:(lia)) as [Hlx _].
  destruct (Zdigits2_bounds (Zpos my) ltac:(lia)) as [Hly _].
  pose proof (Zdigits2_ge_1 (Zpos mx) ltac:(lia)) as Hdx.
  pose proof (Zdigits2_ge_1 (Zpos my) ltac:(lia)) as Hdy.
  assert (Hd : (Zdigits2 (Zpos mx) + Zdigits2 (Zpos my) - 2
                < Zdigits2 (Zpos (mx * my)))%Z).
  { apply Zdigits2_gt; [lia|].
    replace (Zdigits2 (Zpos mx) + Zdigits2 (Zpos my) - 2)%Z
      with ((Zdigits2 (Zpos mx) - 1) + (Zdigits2 (Zpos my) - 1))%Z by lia.
    rewrite Z.pow_add_r, Pos2Z.inj_mul by lia.
    assert (0 < 2 ^ (Zdigits2 (Zpos mx) - 1))%Z by (apply Z.pow_pos_nonneg; lia).
    assert (0 < 2 ^ (Zdigits2 (Zpos my) - 1))%Z by (apply Z.pow_pos_nonneg; lia).
    nia. }
  rewrite fexp_eq.
  destruct (bounded_canonical mx ex Hx) as [Dx|Ex];
    destruct (bounded_canonical my ey Hy) as [Dy|Ey]; lia.
Qed.

Lemma compare_finite_pos (m1 m2 : positive) (e1 e2 : Z) :
  SpecFloat.bounded JS.prec JS.emax m1 e1 = true ->
  SpecFloat.bounded JS.prec JS.emax m2 e2 = true ->
  match SFcompare (S754_finite false m1 e1) (S754_finite false m2 e2) with
  | Some Lt => IZR (Zpos m1) * bpow e1 < IZR (Zpos m2) * bpow e2
  | Some Eq => IZR (Zpos m1) * bpow e1 = IZR (Zpos m2) * bpow e2
  | Some Gt => IZR (Zpos m2) * bpow e2 < IZR (Zpos m1) * bpow e1
  | None => False
  end.
Proof.
  intros H1 H2. cbn [SFcompare].
  destruct (bounded_digits m1 e1 H1) as (Hm1 & He1 & Hn1).
  destruct (bounded_digits m2 e2 H2) as (Hm2 & He2 & Hn2).
  assert (Hstep : forall (ma mb : positive) (ea eb : Z),
            (Zpos ma < 2 ^ 53)%Z -> (2 ^ 52 <= Zpos mb)%Z -> (ea < eb)%Z ->
            IZR (Zpos ma) * bpow ea < IZR (Zpos mb) * bpow eb).
  { intros ma mb ea eb Ha Hb Hab.
    apply Rlt_le_trans with (bpow (53 + ea)).
    - rewrite bpow_add, (bpow_IZR 53) by lia.
      apply Rmult_lt_compat_r; [apply bpow_gt_0|apply IZR_lt; lia].
    - apply Rle_trans with (bpow (52 + eb)); [apply bpow_le; lia|].
      rewrite bpow_add, (bpow_IZR 52) by lia.
      apply Rmult_le_compat_r; [apply Rlt_le, bpow_gt_0|apply IZR_le; lia]. }
  destruct (Z.compare_spec e1 e2) as [<-|Hlt|Hgt].
  - change (Pos.compare_cont Eq m1 m2) with (Pos.compare m1 m2).
    destruct (Pos.compare_spec m1 m2) as [->|Hc|Hc].
    + reflexivity.
    + apply Rmult_lt_compat_r; [apply bpow_gt_0|apply IZR_lt; lia].
    + apply Rmult_lt_compat_r; [apply bpow_gt_0|apply IZR_lt; lia].
  - apply Hstep; try assumption. apply Hn2. lia.
  - apply Hstep; try assumption. apply Hn1. lia.
Qed.

(** [x > y] on positive well-formed Numbers is the order of the reals. *)
Lemma gt_finite_pos (m1 m2 : positive) (e1 e2 : Z) :
  SpecFloat.bounded JS.prec JS.emax m1 e1 = true ->
  SpecFloat.bounded JS.prec JS.emax m2 e2 = true ->
  JS.gt (S754_finite false m1 e1) (S754_finite false m2 e2) = true
  <-> IZR (Zpos m2) * bpow e2 < IZR (Zpos m1) * bpow e1.
Proof.
  intros H1 H2. unfold JS.gt, SFltb.
  pose proof (compare_finite_pos m2 m1 e2 e1 H2 H1) as Hc.
  destruct (SFcompare (S754_finite false m2 e2) (S754_finite false m1 e1))
    as [[ | | ]|]; split; intros H; try discriminate; try reflexivity;
    try assumption; try lra; contradiction.
Qed.

(** The rounded value lies on the grid of its exponent, within half a unit
    of the exact value. *)
Lemma binary_round_aux_grid (sx : bool) (mx ex : Z) (lx : location) (x : R) :
  (0 <= mx)%Z -> inbetween mx lx x ->
  (ex <= fexp64 (Zdigits2 mx + ex))%Z ->
  x * bpow ex <= bpow 900 ->
  exists (k : Z) (y : R),
    repr (binary_round_aux JS.prec JS.emax sx mx ex lx) sx y
    /\ y = IZR k * bpow (fexp64 (Zdigits2 mx + ex))
    /\ Rabs (y - x * bpow ex) <= bpow (fexp64 (Zdigits2 mx + ex) - 1).
Proof.
  intros Hm Hx Hcase Hv.
  unfold binary_round_aux, shr_fexp.
  pose proof (shr_inbetween mx lx ex (fexp64 (Zdigits2 mx + ex) - ex) x Hm Hx)
    as H1.
  pose proof (shr_fits mx lx ex x Hm Hx) as Hfit.
  cbv zeta in H1, Hfit.
  set (n := (fexp64 (Zdigits2 mx + ex) - ex)%Z) in *.
  destruct (shr (shr_record_of_loc mx lx) ex n) as [mrs' e'].
  cbn [fst snd] in H1, Hfit. destruct H1 as (Hm' & Hin & He' & Hno).
  destruct (round_nearest_even_spec _ _ _ Hin) as (Hm1 & Herr & Hex).
  pose proof (shr_exact _ _ e' Hm' Hm1 Hfit) as H2. cbv zeta in H2.
  set (m1 := round_nearest_even (shr_m mrs') (loc_of_shr_record mrs')) in *.
  destruct (shr (shr_record_of_loc m1 loc_Exact) e'
              (fexp64 (Zdigits2 m1 + e') - e')) as [mrs2 e2].
  cbn [fst snd] in H2. destruct H2 as [Hm2 Hval].
  set (x' := x * bpow (ex - e')) in *.
  assert (Hxv : x' * bpow e' = x * bpow ex).
  { unfold x'. rewrite Rmult_assoc, <- bpow_add. f_equal. f_equal. lia. }
  pose proof (bpow_gt_0 e') as Hbe'.
  apply Rabs_bounds in Herr.
  assert (Hee : e' = fexp64 (Zdigits2 mx + ex)) by (unfold n in *; lia).
  exists m1, (IZR m1 * bpow e'). split; [|split].
  - destruct (shr_m mrs2) as [|p|p] eqn:Em2; [| |lia].
    + left. split; [reflexivity|]. rewrite <- Hval. lra.
    + destruct (Z.leb_spec e2 (JS.emax - JS.prec)) as [Hle|Hgt].
      * right. exists p, e2. split; [reflexivity|]. now rewrite Hval.
      * exfalso. change (JS.emax - JS.prec)%Z with 971%Z in Hgt.
        assert (Hp : 1 <= IZR (Zpos p)) by (apply IZR_le; lia).
        assert (Hb : bpow 972 <= bpow e2) by (apply bpow_le; lia).
        pose proof (bpow_gt_0 972) as Hb0.
        assert (Hy : bpow 972 <= IZR m1 * bpow e') by (rewrite <- Hval; nra).
        assert (Hm1pos : 1 <= IZR m1).
        { apply IZR_le.
          destruct (Z_le_gt_dec m1 0) as [Hneg|]; [exfalso|lia].
          apply IZR_le in Hneg. nra. }
        assert (Hy2 : IZR m1 * bpow e' <= 2 * (x * bpow ex)).
        { rewrite <- Hxv. nra. }
        assert (Hb3 : bpow 901 < bpow 972) by (apply bpow_lt; lia).
        replace 901%Z with (900 + 1)%Z in Hb3 by lia.
        rewrite bpow_succ in Hb3. lra.
  - now rewrite Hee.
  - rewrite <- Hxv, <- Hee, bpow_pred. apply Rabs_le. nra.
Qed.

End Canonical.

(** ** The calculator on valid profiles *)

Section Literals.

Local Open Scope R_scope.

Lemma B2R_dyadic (m k : positive) :
  B2R (S754_finite false m (Zneg k)) = IZR (Zpos m) / IZR (Z.pow_pos 2 k).
Proof.
  cbn [B2R cond_Zopp]. change (Zneg k) with (- Zpos k)%Z.
  rewrite bpow_opp, bpow_IZR by lia. reflexivity.
Qed.

(** The binary64 value of each decimal literal of the calculator. *)
Lemma lit_88362_3 : B2R (JS.dec 88362 3) = 6217922973026746 / 70368744177664.
Proof.
  replace (JS.dec 88362 3) with (S754_finite false 6217922973026746 (-46))
    by (vm_compute; reflexivity).
  rewrite B2R_dyadic. reflexivity.
Qed.

Lemma lit_13397_3 : B2R (JS.dec 13397 3) = 7541840525985317 / 562949953421312.
Proof.
  replace (JS.dec 13397 3) with (S754_finite false 7541840525985317 (-49))
    by (vm_compute; reflexivity).
  rewrite B2R_dyadic. reflexivity.
Qed.

Lemma lit_4799_3 : B2R (JS.dec 4799 3) = 5403193652937753 / 1125899906842624.
Proof.
  replace (JS.dec 4799 3) with (S754_finite false 5403193652937753 (-50))
    by (vm_compute; reflexivity).
  rewrite B2R_dyadic. reflexivity.
Qed.

Lemma lit_5677_3 : B2R (JS.dec 5677 3) = 6391733771145576 / 1125899906842624.
Proof.
  replace (JS.dec 5677 3) with (S754_finite false 6391733771145576 (-50))
    by (vm_compute; reflexivity).
  rewrite B2R_dyadic. reflexivity.
Qed.

Lemma lit_447593_3 : B2R (JS.dec 447593 3) = 7874139328178291 / 17592186044416.
Proof.
  replace (JS.dec 447593 3) with (S754_finite false 7874139328178291 (-44))
    by (vm_compute; reflexivity).
  rewrite B2R_dyadic. reflexivity.
Qed.

Lemma lit_9247_3 : B2R (JS.dec 9247 3) = 5205598219286872 / 562949953421312.
Proof.
  replace (JS.dec 9247 3) with (S754_finite false 5205598219286872 (-49))
    by (vm_compute; reflexivity).
  rewrite B2R_dyadic. reflexivity.
Qed.

Lemma lit_3098_3 : B2R (JS.dec 3098 3) = 6976075822796898 / 2251799813685248.
Proof.
  replace (JS.dec 3098 3) with (S754_finite false 6976075822796898 (-51))
    by (vm_compute; reflexivity).
  rewrite B2R_dyadic. reflexivity.
Qed.

Lemma lit_4330_3 : B2R (JS.dec 4330 3) = 4875146596628562 / 1125899906842624.
Proof.
  replace (JS.dec 4330 3) with (S754_finite false 4875146596628562 (-50))
    by (vm_compute; reflexivity).
  rewrite B2R_dyadic. reflexivity.
Qed.

Lemma lit_12_1 : B2R (JS.dec 12 1) = 5404319552844595 / 4503599627370496.
Proof.
  replace (JS.dec 12 1) with (S754_finite false 5404319552844595 (-52))
    by (vm_compute; reflexivity).
  rewrite B2R_dyadic. reflexivity.
Qed.

Lemma lit_1375_3 : B2R (JS.dec 1375 3) = 6192449487634432 / 4503599627370496.
Proof.
  replace (JS.dec 1375 3) with (S754_finite false 6192449487634432 (-52))
    by (vm_compute; reflexivity).
  rewrite B2R_dyadic. reflexivity.
Qed.

Lemma lit_155_2 : B2R (JS.dec 155 2) = 6980579422424269 / 4503599627370496.
Proof.
  replace (JS.dec 155 2) with (S754_finite false 6980579422424269 (-52))
    by (vm_compute; reflexivity).
  rewrite B2R_dyadic. reflexivity.
Qed.

Lemma lit_1725_3 : B2R (JS.dec 1725 3) = 7768709357214106 / 4503599627370496.
Proof.
  replace (JS.dec 1725 3) with (S754_finite false 7768709357214106 (-52))
    by (vm_compute; reflexivity).
  rewrite B2R_dyadic. reflexivity.
Qed.

Lemma lit_25_2 : B2R (JS.dec 25 2) = 4503599627370496 / 18014398509481984.
Proof.
  replace (JS.dec 25 2) with (S754_finite false 4503599627370496 (-54))
    by (vm_compute; reflexivity).
  rewrite B2R_dyadic. reflexivity.
Qed.

Lemma lit_45_2 : B2R (JS.dec 45 2) = 8106479329266893 / 18014398509481984.
Proof.
  replace (JS.dec 45 2) with (S754_finite false 8106479329266893 (-54))
    by (vm_compute; reflexivity).
  rewrite B2R_dyadic. reflexivity.
Qed.

Lemma lit_30_2 : B2R (JS.dec 30 2) = 5404319552844595 / 18014398509481984.
Proof.
  replace (JS.dec 30 2) with (S754_finite false 5404319552844595 (-54))
    by (vm_compute; reflexivity).
  rewrite B2R_dyadic. reflexivity.
Qed.

Lemma literals_finite :
  Forall (fun c => is_finite c = true)
    [JS.dec 88362 3;
     JS.dec 13397 3;
     JS.dec 4799 3;
     JS.dec 5677 3;
     JS.dec 447593 3;
     JS.dec 9247 3;
     JS.dec 3098 3;
     JS.dec 4330 3;
     JS.dec 12 1;
     JS.dec 1375 3;
     JS.dec 155 2;
     JS.dec 1725 3;
     JS.dec 25 2;
     JS.dec 45 2;
     JS.dec 30 2].
Proof. repeat constructor. Qed.

End Literals.

Create Rewrite HintDb js_literals.
#[local] Hint Rewrite lit_88362_3 lit_13397_3 lit_4799_3 lit_5677_3 lit_447593_3 lit_9247_3 lit_3098_3 lit_4330_3 lit_12_1 lit_1375_3 lit_155_2 lit_1725_3 lit_25_2 lit_45_2 lit_30_2 : js_literals.

Section Near.

Local Open Scope R_scope.

Lemma delta_val : delta = / 4294967296.
Proof.
  unfold delta. change (-32)%Z with (Z.opp 32).
  rewrite bpow_opp, bpow_IZR by lia. reflexivity.
Qed.

Lemma bpow_20 : bpow 20 = 1048576.
Proof. rewrite bpow_IZR by lia. reflexivity. Qed.

Lemma rounds_to_near (r : JS.number) (v : R) :
  rounds_to r v -> Rabs v <= 1048576 -> near 1 r v.
Proof.
  intros [Hf Herr] Hv. split; [assumption|].
  eapply Rle_trans; [exact Herr|]. rewrite Rmult_1_l.
  assert (Hu : roundoff * Rabs v <= bpow (-33)).
  { replace (-33)%Z with (-53 + 20)%Z by lia. rewrite bpow_add, bpow_20.
    fold roundoff. pose proof roundoff_pos. nra. }
  assert (He : underflow <= bpow (-33)) by (apply bpow_le; lia).
  unfold delta. replace (-32)%Z with (-33 + 1)%Z by lia.
  rewrite bpow_succ. lra.
Qed.

Lemma mul_near (x y : JS.number) :
  is_finite x = true -> is_finite y = true ->
  Rabs (B2R x * B2R y) <= 1048576 ->
  near 1 (JS.mul x y) (B2R x * B2R y).
Proof.
  intros Hx Hy Hv. apply rounds_to_near; [|assumption].
  apply mul_correct; try assumption.
  eapply Rle_trans; [exact Hv|]. rewrite <- bpow_20. apply bpow_le. lia.
Qed.

Lemma add_near (x y : JS.number) :
  is_finite x = true -> is_finite y = true ->
  Rabs (B2R x + B2R y) <= 1048576 ->
  near 1 (JS.add x y) (B2R x + B2R y).
Proof.
  intros Hx Hy Hv. apply rounds_to_near; [|assumption].
  apply add_correct; try assumption.
  eapply Rle_trans; [exact Hv|]. rewrite <- bpow_20. apply bpow_le. lia.
Qed.

Lemma sub_near (x y : JS.number) :
  is_finite x = true -> is_finite y = true ->
  Rabs (B2R x - B2R y) <= 1048576 ->
  near 1 (JS.sub x y) (B2R x - B2R y).
Proof.
  intros Hx Hy Hv. apply rounds_to_near; [|assumption].
  apply sub_correct; try assumption.
  eapply Rle_trans; [exact Hv|]. rewrite <- bpow_20. apply bpow_le. lia.
Qed.

(** Division by a small positive integer constant. *)
Lemma div_near (x : JS.number) (k : Z) :
  (0 < k < 2 ^ 53)%Z ->
  is_finite x = true ->
  Rabs (B2R x) <= 1048576 ->
  near 1 (JS.div x (JS.of_Z k)) (B2R x / IZR k).
Proof.
  intros Hk Hx Hv.
  destruct (of_Z_exact k ltac:(lia) ltac:(lia)) as (m & e & Ek & Vk).
  destruct (B2R_of_Z k ltac:(lia)) as [_ HB].
  rewrite Ek in *. rewrite <- HB.
  assert (H1 : 1 <= IZR k) by (apply IZR_le; lia).
  assert (Hq : Rabs (B2R x / B2R (S754_finite (k <? 0)%Z m e)) <= 1048576).
  { rewrite HB. unfold Rdiv. rewrite Rabs_mult, Rabs_inv, (Rabs_pos_eq (IZR k)) by lra.
    pose proof (Rabs_pos (B2R x)).
    assert (0 < / IZR k <= 1).
    { split; [apply Rinv_0_lt_compat; lra|].
      rewrite <- Rinv_1. apply Rinv_le_contravar; lra. }
    nra. }
  apply rounds_to_near; [|assumption].
  apply div_correct; [assumption|].
  eapply Rle_trans; [exact Hq|]. rewrite <- bpow_20. apply bpow_le. lia.
Qed.

End Near.

Section HarrisBenedict.

Local Open Scope R_scope.

Lemma Rabs_mul_bound (x y a b : R) :
  Rabs x <= a -> Rabs y <= b -> Rabs (x * y) <= a * b.
Proof.
  intros Hx Hy. rewrite Rabs_mult.
  pose proof (Rabs_pos x). pose proof (Rabs_pos y).
  apply Rmult_le_compat; assumption.
Qed.

(** The shape both BMR formulas share:
    [c0 + (c1 * w) + (c2 * h) - (c3 * a)], evaluated left to right. *)
Lemma harris_benedict_near (c0 c1 c2 c3 w h a : JS.number) :
  Forall (fun x => is_finite x = true /\ Rabs (B2R x) <= 512)
         [c0; c1; c2; c3; w; h; a] ->
  near 6 (JS.sub (JS.add (JS.add c0 (JS.mul c1 w)) (JS.mul c2 h))
                 (JS.mul c3 a))
         (B2R c0 + B2R c1 * B2R w + B2R c2 * B2R h - B2R c3 * B2R a).
Proof.
  intros HF.
  repeat match goal with
  | H : Forall _ (_ :: _) |- _ => inversion_clear H
  | H : _ /\ _ |- _ => destruct H
  end.
  pose proof delta_val as Hd.
  destruct (mul_near c1 w) as [F1 E1]; try assumption.
  { replace 1048576 with (1024 * 1024) by lra.
    apply Rabs_mul_bound; lra. }
  destruct (mul_near c2 h) as [F2 E2]; try assumption.
  { replace 1048576 with (1024 * 1024) by lra.
    apply Rabs_mul_bound; lra. }
  destruct (mul_near c3 a) as [F3 E3]; try assumption.
  { replace 1048576 with (1024 * 1024) by lra.
    apply Rabs_mul_bound; lra. }
  assert (B1 : Rabs (B2R c1 * B2R w) <= 512 * 512) by (apply Rabs_mul_bound; assumption).
  assert (B2 : Rabs (B2R c2 * B2R h) <= 512 * 512) by (apply Rabs_mul_bound; assumption).
  assert (B3 : Rabs (B2R c3 * B2R a) <= 512 * 512) by (apply Rabs_mul_bound; assumption).
  set (P1 := B2R c1 * B2R w) in *. set (P2 := B2R c2 * B2R h) in *.
  set (P3 := B2R c3 * B2R a) in *.
  set (t1 := JS.mul c1 w) in *. set (t2 := JS.mul c2 h) in *.
  set (t3 := JS.mul c3 a) in *.
  apply Rabs_bounds in E1, E2, E3, B1, B2, B3.
  match goal with H : Rabs (B2R c0) <= _ |- _ => apply Rabs_bounds in H end.
  destruct (add_near c0 t1) as [F4 E4]; try assumption.
  { apply Rabs_le. lra. }
  set (s1 := JS.add c0 t1) in *. apply Rabs_bounds in E4.
  destruct (add_near s1 t2) as [F5 E5]; try assumption.
  { apply Rabs_le. lra. }
  set (s2 := JS.add s1 t2) in *. apply Rabs_bounds in E5.
  destruct (sub_near s2 t3) as [F6 E6]; try assumption.
  { apply Rabs_le. lra. }
  apply Rabs_bounds in E6.
  split; [assumption|]. apply Rabs_le. lra.
Qed.

End HarrisBenedict.

Section Targets.

Local Open Scope R_scope.

Lemma int_between_correct (lo hi : Z) (x : JS.number) :
  int_between lo hi x = true ->
  is_finite x = true /\ IZR lo <= B2R x <= IZR hi.
Proof.
  unfold int_between. destruct (integer_value x) as [a|] eqn:Ha; [|discriminate].
  intros H. apply andb_prop in H. destruct H as [H1 H2].
  apply Z.leb_le in H1, H2.
  destruct (integer_value_B2R x a Ha) as [Hf ->].
  split; [assumption|]. split; apply IZR_le; assumption.
Qed.

Lemma validProfile_facts (p : Profile) :
  validProfile p = true ->
  (is_finite (age p) = true /\ 13 <= B2R (age p) <= 120)
  /\ (is_finite (weight p) = true /\ 30 <= B2R (weight p) <= 300)
  /\ (is_finite (height p) = true /\ 100 <= B2R (height p) <= 250)
  /\ In (activityLevel p)
        [Some "sedentary"; Some "lightly_active"; Some "moderately_active";
         Some "very_active"].
Proof.
  unfold validProfile. intros H.
  repeat match goal with
  | H : _ && _ = true |- _ => apply andb_prop in H; destruct H
  end.
  split; [now apply (int_between_correct 13 120)|].
  split; [apply (between_correct 30 300); try reflexivity; try lia; assumption|].
  split; [apply (between_correct 100 250); try reflexivity; try lia; assumption|].
  destruct (activityLevel p) as [l|]; [|discriminate].
  match goal with H : includes _ l = true |- _ => apply includes_in in H; rename H into Hin end.
  cbn [In] in *. intuition (subst; auto).
Qed.

Lemma BMR_range (p : Profile) :
  validProfile p = true ->
  is_finite (Spec.BMR (gender p) (weight p) (height p) (age p)) = true
  /\ 28893 / 100 <= B2R (Spec.BMR (gender p) (weight p) (height p) (age p))
     <= 523342 / 100.
Proof.
  intros Hv.
  destruct (validProfile_facts p Hv) as ((Fa & Ha) & (Fw & Hw) & (Fh & Hh) & _).
  pose proof delta_val as Hd. unfold Spec.BMR.
  destruct (Spec.field_is (gender p) "male").
  - destruct (harris_benedict_near (JS.dec 88362 3) (JS.dec 13397 3)
                (JS.dec 4799 3) (JS.dec 5677 3) (weight p) (height p) (age p))
      as [Hf He].
    { repeat apply Forall_cons; try apply Forall_nil;
        (split; [first [assumption|reflexivity]|]);
        autorewrite with js_literals; apply Rabs_le; lra. }
    autorewrite with js_literals in He. apply Rabs_bounds in He.
    split; [assumption|]. lra.
  - destruct (harris_benedict_near (JS.dec 447593 3) (JS.dec 9247 3)
                (JS.dec 3098 3) (JS.dec 4330 3) (weight p) (height p) (age p))
      as [Hf He].
    { repeat apply Forall_cons; try apply Forall_nil;
        (split; [first [assumption|reflexivity]|]);
        autorewrite with js_literals; apply Rabs_le; lra. }
    autorewrite with js_literals in He. apply Rabs_bounds in He.
    split; [assumption|]. lra.
Qed.

Lemma TDEE_range (p : Profile) :
  validProfile p = true ->
  is_finite (Spec.TDEE p) = true
  /\ 34671 / 100 <= B2R (Spec.TDEE p) <= 902765 / 100.
Proof.
  intros Hv. destruct (BMR_range p Hv) as [Fb Hb].
  destruct (validProfile_facts p Hv) as (_ & _ & _ & Hact).
  pose proof delta_val as Hd. unfold Spec.TDEE.
  set (bmr := Spec.BMR (gender p) (weight p) (height p) (age p)) in *.
  cbn [In] in Hact.
  destruct Hact as [<-|[<-|[<-|[<-|[]]]]];
    cbv [Spec.activityFactor Spec.field_is];
    cbn [String.eqb Ascii.eqb Bool.eqb];
    match goal with
    | |- context [JS.mul ?b ?c] =>
        destruct (mul_near b c) as [Hf He];
          [assumption|reflexivity|
           autorewrite with js_literals; apply Rabs_le; lra|];
        autorewrite with js_literals in He; apply Rabs_bounds in He;
        (split; [assumption|lra])
    end.
Qed.

Lemma target_range (p : Profile) (goals : list string) :
  validProfile p = true ->
  is_finite (Spec.target (Spec.TDEE p) goals) = true
  /\ - (15330 / 100) <= B2R (Spec.target (Spec.TDEE p) goals) <= 932766 / 100
  /\ (includes goals "weight_loss" = false ->
      34671 / 100 <= B2R (Spec.target (Spec.TDEE p) goals)).
Proof.
  intros Hv. destruct (TDEE_range p Hv) as [Ft Ht].
  pose proof delta_val as Hd. unfold Spec.target.
  set (tdee := Spec.TDEE p) in *. clearbody tdee. clear Hv.
  destruct (B2R_of_Z 500 ltac:(lia)) as [F500 V500].
  destruct (B2R_of_Z 300 ltac:(lia)) as [F300 V300].
  pose proof (sub_near tdee (JS.of_Z 500) Ft F500) as Hsub.
  pose proof (add_near tdee (JS.of_Z 300) Ft F300) as Hadd.
  rewrite V500 in Hsub. rewrite V300 in Hadd. clear V500 V300.
  destruct (includes goals "weight_loss").
  - destruct Hsub as [Hf He]; [clear - Ht; apply Rabs_le; lra|]. clear Hadd.
    apply Rabs_bounds in He.
    split; [assumption|]. split; [lra|discriminate].
  - destruct (includes goals "muscle_gain").
    + destruct Hadd as [Hf He]; [clear - Ht; apply Rabs_le; lra|]. clear Hsub.
      apply Rabs_bounds in He.
      split; [assumption|]. split; [lra|intros _; lra].
    + clear Hsub Hadd. split; [assumption|]. split; [lra|intros _; lra].
Qed.

(** One macro target: [Math.round(t * share / k)]. *)
Lemma grams_spec (t c : JS.number) (k : Z) :
  is_finite t = true -> Rabs (B2R t) <= 16384 ->
  is_finite c = true -> Rabs (B2R c) <= 1 ->
  (0 < k < 2 ^ 53)%Z ->
  exists g,
    integer_value (Spec.grams t c k) = Some g
    /\ IZR g - / 2 - 2 * delta <= B2R t * B2R c / IZR k
        < IZR g + / 2 + 2 * delta.
Proof.
  intros Ft Ht Fc Hc Hk. pose proof delta_val as Hd. unfold Spec.grams.
  assert (Hp : Rabs (B2R t * B2R c) <= 16384 * 1) by (apply Rabs_mul_bound; assumption).
  destruct (mul_near t c) as [F1 E1]; try assumption; [lra|].
  set (P := B2R t * B2R c) in *. set (y1 := JS.mul t c) in *.
  apply Rabs_bounds in Hp, E1.
  destruct (div_near y1 k Hk F1) as [F2 E2]; [apply Rabs_le; lra|].
  set (y2 := JS.div y1 (JS.of_Z k)) in *.
  assert (H1 : 1 <= IZR k) by (apply IZR_le; lia).
  assert (Hik : 0 < / IZR k <= 1).
  { split; [apply Rinv_0_lt_compat; lra|].
    rewrite <- Rinv_1. apply Rinv_le_contravar; lra. }
  unfold Rdiv in *. set (ik := / IZR k) in *.
  apply Rabs_bounds in E2.
  assert (Hq : - (1 * delta) <= B2R y1 * ik - P * ik <= 1 * delta).
  { replace (B2R y1 * ik - P * ik) with ((B2R y1 - P) * ik) by ring.
    apply Rabs_bounds. rewrite <- (Rmult_1_r (1 * delta)).
    apply Rabs_mul_bound; apply Rabs_le; lra. }
  assert (HP : - 16384 <= P * ik <= 16384).
  { apply Rabs_bounds. rewrite <- (Rmult_1_r 16384).
    apply Rabs_mul_bound; apply Rabs_le; lra. }
  destruct (Math_round_correct y2 F2) as (g & Hg & Hr).
  { rewrite (bpow_IZR 52) by lia. apply Rabs_le.
    assert (16385 <= IZR (2 ^ 52)) by (apply IZR_le; lia). lra. }
  exists g. split; [assumption|]. lra.
Qed.

(** What the calculator returns on a valid profile, in real numbers: the
    calorie target [T] it rounds, and the four integers it returns. *)
Lemma calculator_analysis (p : Profile) (goals : list string) :
  validProfile p = true -> fitnessGoals p = Some goals ->
  let T := B2R (Spec.target (Spec.TDEE p) goals) in
  exists (needs : NutritionNeeds) (d pr cb ft : Z),
    AIService.calculateNutritionNeeds p = Return needs
    /\ integer_value (dailyCalories needs) = Some d
    /\ integer_value (m_protein (macros needs)) = Some pr
    /\ integer_value (m_carbs (macros needs)) = Some cb
    /\ integer_value (m_fats (macros needs)) = Some ft
    /\ - (15330 / 100) <= T <= 932766 / 100
    /\ (includes goals "weight_loss" = false -> 34671 / 100 <= T)
    /\ IZR d - / 2 <= T < IZR d + / 2
    /\ IZR pr - / 2 - 2 * delta <= T / 16 < IZR pr + / 2 + 2 * delta
    /\ IZR cb - / 2 - 2 * delta
       <= T * (8106479329266893 / 18014398509481984) / 4
       < IZR cb + / 2 + 2 * delta
    /\ IZR ft - / 2 - 2 * delta
       <= T * (5404319552844595 / 18014398509481984) / 9
       < IZR ft + / 2 + 2 * delta.
Proof.
  intros Hv Hg T.
  destruct (validProfile_facts p Hv) as (_ & _ & _ & Hact).
  assert (Hk : includes AIService.Object_prototype_keys
                 (activityKey (activityLevel p)) = false).
  { cbn [In] in Hact.
    destruct Hact as [<-|[<-|[<-|[<-|[]]]]]; reflexivity. }
  rewrite (calculateNutritionNeeds_refines p goals Hg Hk).
  destruct (target_range p goals Hv) as (Ft & Ht & Hpos).
  unfold Spec.computeTargets. subst T.
  set (t := Spec.target (Spec.TDEE p) goals) in *. clearbody t.
  assert (Hmag : Rabs (B2R t) <= 16384) by (apply Rabs_le; lra).
  destruct (Math_round_correct t Ft) as (d & Hd & Hdr).
  { rewrite (bpow_IZR 52) by lia. apply Rabs_le.
    assert (16384 <= IZR (2 ^ 52)) by (apply IZR_le; lia). lra. }
  destruct (grams_spec t (JS.dec 25 2) 4 Ft Hmag eq_refl) as (pr & Hpr & Hprr);
    [rewrite lit_25_2; apply Rabs_le; lra|lia|].
  destruct (grams_spec t (JS.dec 45 2) 4 Ft Hmag eq_refl) as (cb & Hcb & Hcbr);
    [rewrite lit_45_2; apply Rabs_le; lra|lia|].
  destruct (grams_spec t (JS.dec 30 2) 9 Ft Hmag eq_refl) as (ft & Hft & Hftr);
    [rewrite lit_30_2; apply Rabs_le; lra|lia|].
  rewrite lit_25_2 in Hprr. rewrite lit_45_2 in Hcbr. rewrite lit_30_2 in Hftr.
  eexists _, d, pr, cb, ft. split; [reflexivity|].
  cbn [dailyCalories macros m_protein m_carbs m_fats].
  repeat (split; [first [assumption|lra]|]). lra.
Qed.

(** The two goal adjustments, in real numbers. *)
Lemma target_adjustment (p : Profile) :
  validProfile p = true ->
  let tdee := B2R (Spec.TDEE p) in
  B2R (Spec.target (Spec.TDEE p) []) = tdee
  /\ Rabs (B2R (Spec.target (Spec.TDEE p) ["weight_loss"]) - (tdee - 500))
     <= delta
  /\ Rabs (B2R (Spec.target (Spec.TDEE p) ["muscle_gain"]) - (tdee + 300))
     <= delta.
Proof.
  intros Hv. destruct (TDEE_range p Hv) as [Ft Ht].
  cbv zeta. change (Spec.target (Spec.TDEE p) []) with (Spec.TDEE p).
  change (Spec.target (Spec.TDEE p) ["weight_loss"])
    with (JS.sub (Spec.TDEE p) (JS.of_Z 500)).
  change (Spec.target (Spec.TDEE p) ["muscle_gain"])
    with (JS.add (Spec.TDEE p) (JS.of_Z 300)).
  set (tdee := Spec.TDEE p) in *. clearbody tdee. clear Hv.
  destruct (B2R_of_Z 500 ltac:(lia)) as [F500 V500].
  destruct (B2R_of_Z 300 ltac:(lia)) as [F300 V300].
  pose proof (sub_near tdee (JS.of_Z 500) Ft F500) as Hsub.
  pose proof (add_near tdee (JS.of_Z 300) Ft F300) as Hadd.
  rewrite V500 in Hsub. rewrite V300 in Hadd. clear V500 V300.
  destruct Hsub as [_ Hs]; [clear - Ht; apply Rabs_le; lra|].
  destruct Hadd as [_ Ha]; [clear - Ht; apply Rabs_le; lra|].
  rewrite Rmult_1_l in Hs, Ha. repeat split; assumption.
Qed.

End Targets.

Section ValidProfiles.

Import AIService.

Lemma Z_between_of_R (n lo hi : Z) :
  (IZR lo - 1 < IZR n)%R -> (IZR n < IZR hi + 1)%R -> lo <= n <= hi.
Proof.
  intros H1 H2. rewrite <- minus_IZR in H1. rewrite <- plus_IZR in H2.
  apply lt_IZR in H1, H2. lia.
Qed.

(** X1.  On a profile whose fields are all present and within the ranges
    the validation chain accepts, and which has a [fitnessGoals] array, the
    calculator returns four integers (never NaN, an infinity or a
    fraction): the calories between -153 and 9328, the protein grams
    between -10 and 583, the carbohydrate grams between -17 and 1049 and
    the fat grams between -5 and 311. *)
Theorem calculateNutritionNeeds_valid_profile_range
  (p : Profile) (goals : list string) :
  validProfile p = true -> fitnessGoals p = Some goals ->
  exists needs d pr cb ft,
    calculateNutritionNeeds p = Return needs
    /\ integer_value (dailyCalories needs) = Some d
    /\ integer_value (m_protein (macros needs)) = Some pr
    /\ integer_value (m_carbs (macros needs)) = Some cb
    /\ integer_value (m_fats (macros needs)) = Some ft
    /\ -153 <= d <= 9328
    /\ -10 <= pr <= 583
    /\ -17 <= cb <= 1049
    /\ -5 <= ft <= 311.
Proof.
  intros Hv Hg.
  pose proof (calculator_analysis p goals Hv Hg) as H. cbv zeta in H.
  set (T := B2R (Spec.target (Spec.TDEE p) goals)) in H. clearbody T.
  destruct H
    as (needs & d & pr & cb & ft & Hc & Hd & Hpr & Hcb & Hft
        & HT & _ & Rd & Rpr & Rcb & Rft).
  pose proof delta_val as Hdelta.
  exists needs, d, pr, cb, ft.
  repeat (split; [assumption|]).
  split; [|split; [|split]]; apply Z_between_of_R; lra.
Qed.

(** X2.  On such a profile whose goals do not include weight_loss, all
    four results are positive: at least 347 kcal, 22 g of protein, 39 g of
    carbohydrates and 12 g of fat. *)
Theorem calculateNutritionNeeds_positive
  (p : Profile) (goals : list string) :
  validProfile p = true -> fitnessGoals p = Some goals ->
  includes goals "weight_loss" = false ->
  exists needs d pr cb ft,
    calculateNutritionNeeds p = Return needs
    /\ integer_value (dailyCalories needs) = Some d
    /\ integer_value (m_protein (macros needs)) = Some pr
    /\ integer_value (m_carbs (macros needs)) = Some cb
    /\ integer_value (m_fats (macros needs)) = Some ft
    /\ 347 <= d /\ 22 <= pr /\ 39 <= cb /\ 12 <= ft.
Proof.
  intros Hv Hg Hwl.
  pose proof (calculator_analysis p goals Hv Hg) as H. cbv zeta in H.
  set (T := B2R (Spec.target (Spec.TDEE p) goals)) in H. clearbody T.
  destruct H
    as (needs & d & pr & cb & ft & Hc & Hd & Hpr & Hcb & Hft
        & HT & Hpos & Rd & Rpr & Rcb & Rft).
  specialize (Hpos Hwl). pose proof delta_val as Hdelta.
  exists needs, d, pr, cb, ft.
  repeat (split; [assumption|]).
  split; [|split; [|split]].
  - apply (Z_between_of_R d 347 9328); lra.
  - apply (Z_between_of_R pr 22 583); lra.
  - apply (Z_between_of_R cb 39 1049); lra.
  - apply (Z_between_of_R ft 12 311); lra.
Qed.

(** X3.  On such a profile the energy of the macro targets, 4 kcal per
    gram of protein and of carbohydrates and 9 kcal per gram of fat,
    differs from the calorie target by at most 8 kcal. *)
Theorem calculateNutritionNeeds_macro_kcal
  (p : Profile) (goals : list string) :
  validProfile p = true -> fitnessGoals p = Some goals ->
  exists needs d pr cb ft,
    calculateNutritionNeeds p = Return needs
    /\ integer_value (dailyCalories needs) = Some d
    /\ integer_value (m_protein (macros needs)) = Some pr
    /\ integer_value (m_carbs (macros needs)) = Some cb
    /\ integer_value (m_fats (macros needs)) = Some ft
    /\ Z.abs (4 * pr + 4 * cb + 9 * ft - d) <= 8.
Proof.
  intros Hv Hg.
  pose proof (calculator_analysis p goals Hv Hg) as H. cbv zeta in H.
  set (T := B2R (Spec.target (Spec.TDEE p) goals)) in H. clearbody T.
  destruct H
    as (needs & d & pr & cb & ft & Hc & Hd & Hpr & Hcb & Hft
        & HT & _ & Rd & Rpr & Rcb & Rft).
  pose proof delta_val as Hdelta.
  exists needs, d, pr, cb, ft.
  repeat (split; [assumption|]).
  clear Hc Hd Hpr Hcb Hft Hv Hg.
  destruct (Z_le_gt_dec (4 * pr + 4 * cb + 9 * ft - d) 8) as [Hle|Hgt].
  - destruct (Z_le_gt_dec (-8) (4 * pr + 4 * cb + 9 * ft - d)) as [Hge|Hlt];
      [lia|exfalso].
    assert (H : (4 * pr + 4 * cb + 9 * ft - d <= -9)%Z) by lia.
    apply IZR_le in H. rewrite minus_IZR, !plus_IZR, !mult_IZR in H.
    assert (Hint : -9 < 16 * pr - d < -8).
    { split; apply lt_IZR; rewrite minus_IZR, mult_IZR; lra. }
    lia.
  - exfalso.
    assert (H : (9 <= 4 * pr + 4 * cb + 9 * ft - d)%Z) by lia.
    apply IZR_le in H. rewrite minus_IZR, !plus_IZR, !mult_IZR in H.
    assert (Hint : 8 < 16 * pr - d < 9).
    { split; apply lt_IZR; rewrite minus_IZR, mult_IZR; lra. }
    lia.
Qed.

(** X14.  The goal adjustments.  On a valid profile, the calories returned
    with the goal weight_loss are 500 below those returned without a goal,
    and those returned with muscle_gain are 300 above, each up to 1 kcal of
    rounding. *)
Theorem calculateNutritionNeeds_goal_adjustment (p : Profile) :
  validProfile p = true ->
  exists n0 n1 n2 d0 d1 d2,
    calculateNutritionNeeds (with_fitnessGoals (Some []) p) = Return n0
    /\ calculateNutritionNeeds (with_fitnessGoals (Some ["weight_loss"]) p)
       = Return n1
    /\ calculateNutritionNeeds (with_fitnessGoals (Some ["muscle_gain"]) p)
       = Return n2
    /\ integer_value (dailyCalories n0) = Some d0
    /\ integer_value (dailyCalories n1) = Some d1
    /\ integer_value (dailyCalories n2) = Some d2
    /\ 499 <= d0 - d1 <= 501
    /\ 299 <= d2 - d0 <= 301.
Proof.
  intros Hv.
  pose proof (calculator_analysis (with_fitnessGoals (Some []) p) []
                Hv eq_refl) as H0.
  pose proof (calculator_analysis (with_fitnessGoals (Some ["weight_loss"]) p)
                ["weight_loss"] Hv eq_refl) as H1.
  pose proof (calculator_analysis (with_fitnessGoals (Some ["muscle_gain"]) p)
                ["muscle_gain"] Hv eq_refl) as H2.
  cbv zeta in H0, H1, H2.
  change (Spec.TDEE (with_fitnessGoals _ p)) with (Spec.TDEE p) in H0, H1, H2.
  destruct (target_adjustment p Hv) as (E0 & E1 & E2).
  set (tdee := B2R (Spec.TDEE p)) in *.
  set (T0 := B2R (Spec.target (Spec.TDEE p) [])) in *.
  set (T1 := B2R (Spec.target (Spec.TDEE p) ["weight_loss"])) in *.
  set (T2 := B2R (Spec.target (Spec.TDEE p) ["muscle_gain"])) in *.
  clearbody tdee T0 T1 T2.
  destruct H0 as (n0 & d0 & _ & _ & _ & C0 & D0 & _ & _ & _ & _ & _ & R0 & _).
  destruct H1 as (n1 & d1 & _ & _ & _ & C1 & D1 & _ & _ & _ & _ & _ & R1 & _).
  destruct H2 as (n2 & d2 & _ & _ & _ & C2 & D2 & _ & _ & _ & _ & _ & R2 & _).
  pose proof delta_val as Hdelta.
  apply Rabs_bounds in E1, E2.
  exists n0, n1, n2, d0, d1, d2.
  repeat (split; [assumption|]).
  split; apply Z_between_of_R; rewrite minus_IZR; lra.
Qed.

End ValidProfiles.

(** ** Edge cases *)

Section CalculatorEdges.

Import AIService.

Lemma mul_NaN_l (y : JS.number) : JS.mul JS.NaN y = JS.NaN.
Proof. reflexivity. Qed.

Lemma mul_NaN_r (x : JS.number) : JS.mul x JS.NaN = JS.NaN.
Proof. destruct x; reflexivity. Qed.

Lemma add_NaN_l (y : JS.number) : JS.add JS.NaN y = JS.NaN.
Proof. reflexivity. Qed.

Lemma add_NaN_r (x : JS.number) : JS.add x JS.NaN = JS.NaN.
Proof. destruct x; reflexivity. Qed.

Lemma sub_NaN_l (y : JS.number) : JS.sub JS.NaN y = JS.NaN.
Proof. reflexivity. Qed.

Lemma sub_NaN_r (x : JS.number) : JS.sub x JS.NaN = JS.NaN.
Proof. destruct x; reflexivity. Qed.

Lemma div_NaN_l (y : JS.number) : JS.div JS.NaN y = JS.NaN.
Proof. reflexivity. Qed.

(** Once the energy expenditure is NaN, so is every target. *)
Lemma targets_NaN (goals : list string) : targets JS.NaN goals = all_NaN.
Proof.
  unfold targets, Spec.target.
  destruct (includes goals "weight_loss"); [reflexivity|].
  destruct (includes goals "muscle_gain"); reflexivity.
Qed.

Lemma calculateNutritionNeeds_unfold (p : Profile) (goals : list string) :
  fitnessGoals p = Some goals ->
  calculateNutritionNeeds p =
  Return (targets (JS.mul (Spec.BMR (gender p) (weight p) (height p) (age p))
                          (factor (activityLevel p)))
                  goals).
Proof.
  intros Hg. unfold calculateNutritionNeeds. rewrite Hg.
  unfold targets, Spec.target, Spec.BMR, Spec.field_is, factor.
  cbn [get_of bind].
  destruct (includes goals "weight_loss"); cbn [bind]; [reflexivity|].
  destruct (includes goals "muscle_gain"); reflexivity.
Qed.

Lemma calculateNutritionNeeds_absent (p : Profile) :
  fitnessGoals p = None -> calculateNutritionNeeds p = Throw TypeError.
Proof. intros Hg. unfold calculateNutritionNeeds. now rewrite Hg. Qed.

Lemma BMR_NaN (g : option string) (w h a : JS.number) :
  a = JS.NaN \/ w = JS.NaN \/ h = JS.NaN -> Spec.BMR g w h a = JS.NaN.
Proof.
  unfold Spec.BMR. intros [->|[->| ->]]; destruct (Spec.field_is g "male");
    rewrite ?mul_NaN_r, ?add_NaN_r, ?add_NaN_l, ?sub_NaN_r, ?sub_NaN_l;
    reflexivity.
Qed.

(** X4.  An absent numeric field.  When the age, the weight or the height of
    a profile is absent (NaN in the arithmetic), the calculator does not
    fail: it returns NaN for the calories and for every macro. *)
Theorem calculateNutritionNeeds_missing_number
  (p : Profile) (goals : list string) :
  fitnessGoals p = Some goals ->
  age p = JS.NaN \/ weight p = JS.NaN \/ height p = JS.NaN ->
  calculateNutritionNeeds p = Return all_NaN.
Proof.
  intros Hg Hnan. rewrite (calculateNutritionNeeds_unfold p goals Hg).
  rewrite (BMR_NaN _ _ _ _ Hnan), mul_NaN_l, targets_NaN. reflexivity.
Qed.

(** X5.  Activity levels named like a property of [Object.prototype].  For
    every such level the fallback is not taken and all four results are
    NaN, whatever the rest of the profile. *)
Theorem calculateNutritionNeeds_inherited_level
  (p : Profile) (goals : list string) (k : string) :
  fitnessGoals p = Some goals ->
  activityLevel p = Some k -> In k Object_prototype_keys ->
  calculateNutritionNeeds p = Return all_NaN.
Proof.
  intros Hg Hl Hk. rewrite (calculateNutritionNeeds_unfold p goals Hg).
  unfold factor. rewrite activity_factor_inherited.
  - rewrite mul_NaN_r, targets_NaN. reflexivity.
  - rewrite Hl. apply includes_in. exact Hk.
Qed.

(** X6.  The fallback.  An activity level that is absent, or is neither one
    of the four known levels nor a name inherited from [Object.prototype],
    gives exactly the results of the sedentary level. *)
Theorem calculateNutritionNeeds_unknown_level_is_sedentary (p : Profile) :
  ~ In (activityKey (activityLevel p)) (activityLevels ++ Object_prototype_keys) ->
  calculateNutritionNeeds p
  = calculateNutritionNeeds (with_activityLevel (Some "sedentary") p).
Proof.
  intros Hk.
  destruct (fitnessGoals p) as [goals|] eqn:Hg.
  - rewrite (calculateNutritionNeeds_unfold p goals Hg).
    rewrite (calculateNutritionNeeds_unfold (with_activityLevel _ p) goals Hg).
    cbn [with_activityLevel gender weight height age activityLevel].
    f_equal. f_equal. f_equal.
    assert (Hp : includes Object_prototype_keys (activityKey (activityLevel p))
                 = false).
    { destruct (includes Object_prototype_keys (activityKey (activityLevel p)))
        eqn:E; [|reflexivity].
      exfalso. apply Hk, in_or_app. right. now apply includes_in. }
    unfold factor. rewrite (activity_factor_spec _ Hp).
    assert (Hn : forall l, In l activityLevels ->
                           activityLevel p <> Some l).
    { intros l Hl E. apply Hk, in_or_app. left. now rewrite E. }
    unfold Spec.activityFactor, Spec.field_is.
    destruct (activityLevel p) as [l|]; [|reflexivity].
    repeat match goal with
    | |- context [String.eqb l ?s] =>
        destruct (String.eqb_spec l s) as [->|_];
          [exfalso; apply (Hn s); [cbn; tauto|reflexivity]|]
    end.
    reflexivity.
  - rewrite !calculateNutritionNeeds_absent; [reflexivity|exact Hg|exact Hg].
Qed.

(** X7.  The gender.  Every gender other than the string "male", an absent
    one included, is computed with the second formula: the results are
    those of "female". *)
Theorem calculateNutritionNeeds_not_male_is_female (p : Profile) :
  gender p <> Some "male" ->
  calculateNutritionNeeds p
  = calculateNutritionNeeds (with_gender (Some "female") p).
Proof.
  intros Hm.
  destruct (fitnessGoals p) as [goals|] eqn:Hg.
  - rewrite (calculateNutritionNeeds_unfold p goals Hg).
    rewrite (calculateNutritionNeeds_unfold (with_gender _ p) goals Hg).
    cbn [with_gender gender weight height age activityLevel].
    f_equal. f_equal. f_equal.
    unfold Spec.BMR, Spec.field_is.
    destruct (gender p) as [g|]; [|reflexivity].
    destruct (String.eqb_spec g "male") as [->|_]; [now elim Hm|reflexivity].
  - rewrite !calculateNutritionNeeds_absent; [reflexivity|exact Hg|exact Hg].
Qed.

(** X8.  The goals.  The results depend on the goals only through the
    presence of weight_loss and, when it is absent, of muscle_gain: order,
    duplicates and other goals are irrelevant, and muscle_gain is ignored
    next to weight_loss. *)
Theorem calculateNutritionNeeds_goal_precedence
  (p : Profile) (g1 g2 : list string) :
  includes g1 "weight_loss" = includes g2 "weight_loss" ->
  (includes g1 "weight_loss" = false ->
   includes g1 "muscle_gain" = includes g2 "muscle_gain") ->
  calculateNutritionNeeds (with_fitnessGoals (Some g1) p)
  = calculateNutritionNeeds (with_fitnessGoals (Some g2) p).
Proof.
  intros Hwl Hmg.
  rewrite (calculateNutritionNeeds_unfold (with_fitnessGoals (Some g1) p) g1 eq_refl).
  rewrite (calculateNutritionNeeds_unfold (with_fitnessGoals (Some g2) p) g2 eq_refl).
  cbn [with_fitnessGoals gender weight height age activityLevel].
  unfold targets, Spec.target. rewrite <- Hwl.
  destruct (includes g1 "weight_loss"); [reflexivity|].
  rewrite <- (Hmg eq_refl). reflexivity.
Qed.

End CalculatorEdges.

Section MealPlanEdges.

Import AIService.

Lemma keep_meal_mono (r1 r2 : list string) (meal : Meal) :
  (forall s, In s r1 -> In s r2) ->
  keep_meal r2 meal = true -> keep_meal r1 meal = true.
Proof.
  intros Hsub. unfold keep_meal.
  assert (H : forall t, includes r1 t = true -> includes r2 t = true).
  { intros t Ht. apply includes_in. apply Hsub. now apply includes_in. }
  pose proof (H "vegan") as Hv. pose proof (H "gluten_free") as Hg.
  destruct (includes r1 "vegan"), (includes r1 "gluten_free");
    try rewrite (Hv eq_refl); try rewrite (Hg eq_refl);
    destruct (includes r2 "vegan"), (includes r2 "gluten_free"),
             (vegan meal), (glutenFree meal);
    cbn; congruence.
Qed.

Lemma In_filterMeals (r : list string) (mealType : string) (meal : Meal) :
  (exists meals, In (mealType, meals) (filterMeals r) /\ In meal meals)
  <-> (exists all, In (mealType, all) mealDatabase
                   /\ In meal all /\ keep_meal r meal = true).
Proof.
  unfold filterMeals. split.
  - intros (meals & Hin & Hm). apply in_map_iff in Hin.
    destruct Hin as ([k all] & Heq & Hdb). injection Heq as -> <-.
    apply filter_In in Hm. exists all. tauto.
  - intros (all & Hdb & Hm & Hk).
    exists (filter (keep_meal r) all). split.
    + apply in_map_iff. exists (mealType, all). split; [reflexivity|assumption].
    + apply filter_In. tauto.
Qed.

(** X9.  More restrictions, fewer meals.  When every restriction of a first
    request is also in a second one, each meal the second plan offers in a
    slot is offered by the first plan in the same slot. *)
Theorem generateMealPlan_monotone
  (p : Profile) (prefs1 prefs2 : option Preferences)
  (plan1 plan2 : list (string * list Meal)) :
  (forall s, In s (Spec.restrictions prefs1) -> In s (Spec.restrictions prefs2)) ->
  generateMealPlan p prefs1 = Return plan1 ->
  generateMealPlan p prefs2 = Return plan2 ->
  forall mealType meals2 meal,
    In (mealType, meals2) plan2 -> In meal meals2 ->
    exists meals1, In (mealType, meals1) plan1 /\ In meal meals1.
Proof.
  intros Hsub H1 H2 mealType meals2 meal Hin Hm.
  rewrite generateMealPlan_eq in H1, H2.
  destruct (fitnessGoals p); [|discriminate].
  injection H1 as <-. injection H2 as <-.
  apply In_filterMeals.
  destruct (proj1 (In_filterMeals (Spec.restrictions prefs2) mealType meal))
    as (all & Hdb & Hall & Hk).
  { exists meals2. split; assumption. }
  exists all. repeat split; try assumption.
  exact (keep_meal_mono _ _ meal Hsub Hk).
Qed.

(** X10.  The tags that count.  Two requests whose restrictions agree on vegan
    and on gluten_free get the same outcome: every other restriction
    (vegetarian, for one) changes nothing. *)
Theorem generateMealPlan_other_tags_ignored
  (p : Profile) (prefs1 prefs2 : option Preferences) :
  includes (Spec.restrictions prefs1) "vegan"
  = includes (Spec.restrictions prefs2) "vegan" ->
  includes (Spec.restrictions prefs1) "gluten_free"
  = includes (Spec.restrictions prefs2) "gluten_free" ->
  generateMealPlan p prefs1 = generateMealPlan p prefs2.
Proof.
  intros Hv Hg. rewrite !generateMealPlan_eq.
  destruct (fitnessGoals p); [|reflexivity]. f_equal.
  unfold filterMeals. apply map_ext. intros [k meals]. f_equal.
  apply filter_ext. intros meal. unfold keep_meal. now rewrite Hv, Hg.
Qed.

(** X11.  gluten_free is honoured.  When it is requested, no meal of the plan
    has a false glutenFree flag. *)
Theorem generateMealPlan_gluten_free
  (p : Profile) (prefs : option Preferences)
  (plan : list (string * list Meal)) :
  In "gluten_free" (Spec.restrictions prefs) ->
  generateMealPlan p prefs = Return plan ->
  forall mealType meals meal,
    In (mealType, meals) plan -> In meal meals -> glutenFree meal = true.
Proof.
  intros Hr Hp mealType meals meal Hin Hm.
  rewrite generateMealPlan_eq in Hp.
  destruct (fitnessGoals p); [|discriminate]. injection Hp as <-.
  pose proof (filterMeals_kept _ _ _ _ Hin Hm) as Hk.
  unfold keep_meal in Hk. apply includes_in in Hr. rewrite Hr in Hk.
  destruct (includes (Spec.restrictions prefs) "vegan" && negb (vegan meal));
    [discriminate|].
  destruct (glutenFree meal); [reflexivity|discriminate].
Qed.

(** X17.  The plan is not personalised.  The nutrition needs computed from
    the profile are discarded: two profiles that both have a [fitnessGoals]
    array get the same plan for the same request, whatever their age,
    weight, height, gender, activity level and goals. *)
Theorem generateMealPlan_ignores_profile
  (p q : Profile) (prefs : option Preferences) :
  fitnessGoals p <> None -> fitnessGoals q <> None ->
  generateMealPlan p prefs = generateMealPlan q prefs.
Proof.
  intros Hp Hq. rewrite !generateMealPlan_eq.
  destruct (fitnessGoals p); [|contradiction].
  destruct (fitnessGoals q); [reflexivity|contradiction].
Qed.

End MealPlanEdges.

Section RecommendationEdges.

Import AIService.

Lemma gt_NaN_l (y : JS.number) : JS.gt JS.NaN y = false.
Proof. unfold JS.gt, SFltb. destruct y; reflexivity. Qed.

Lemma gt_NaN_r (x : JS.number) : JS.gt x JS.NaN = false.
Proof. reflexivity. Qed.

(** X12.  What the recommendations read.  They depend on the profile only
    through [fitnessGoals] and [preferences.dietaryRestrictions], and on the
    progress list only through its first entry: age, weight, height, gender,
    activity level and older entries never change the outcome. *)
Theorem getPersonalizedRecommendations_reads
  (p q : Profile) (progress1 progress2 : option (list ProgressEntry)) :
  fitnessGoals p = fitnessGoals q ->
  option_map dietaryRestrictions (preferences p)
  = option_map dietaryRestrictions (preferences q) ->
  hd_error (Spec.orEmpty progress1) = hd_error (Spec.orEmpty progress2) ->
  getPersonalizedRecommendations p progress1
  = getPersonalizedRecommendations q progress2.
Proof.
  intros Hg Hd Hp. rewrite <- !recentProgress_orEmpty in Hp.
  unfold getPersonalizedRecommendations, generateWorkoutRecommendations,
    generateNutritionRecommendations, generateLifestyleRecommendations.
  rewrite Hg, Hp.
  assert (Hget : get_of (preferences p) dietaryRestrictions
                 = get_of (preferences q) dietaryRestrictions).
  { destruct (preferences p), (preferences q); cbn in Hd |- *; congruence. }
  rewrite Hget. reflexivity.
Qed.

(** X13.  An entry without numbers.  For a profile that has a
    [preferences] object, when the first progress entry lacks
    caloriesConsumed or targetCalories (NaN in the comparison), the
    generator completes and emits no recommendation of type
    "calorie_control": the result is the protein recommendation when the
    restrictions include vegetarian, and empty otherwise. *)
Theorem generateNutritionRecommendations_missing_calories
  (p : Profile) (prefs : Preferences) (e : ProgressEntry)
  (older : list ProgressEntry) :
  preferences p = Some prefs ->
  caloriesConsumed e = JS.NaN \/ targetCalories e = JS.NaN ->
  exists rs : list Recommendation,
    generateNutritionRecommendations p (Some (e :: older)) = Return rs
    /\ rs = Spec.when
              (includes (Spec.orEmpty (dietaryRestrictions prefs)) "vegetarian")
              protein_rec
    /\ ~ In "calorie_control" (map type rs).
Proof.
  intros Hp Hnan. eexists. split.
  - rewrite (nutrition_rules p _ prefs Hp).
    cbn [Spec.orEmpty Spec.overTarget].
    assert (Hover : JS.gt (caloriesConsumed e)
                      (JS.mul (targetCalories e) (JS.dec 12 1)) = false).
    { destruct Hnan as [-> | ->]; [apply gt_NaN_l|].
      change (JS.mul JS.NaN (JS.dec 12 1)) with JS.NaN. apply gt_NaN_r. }
    rewrite Hover. reflexivity.
  - split; [reflexivity|].
    destruct (includes (Spec.orEmpty (dietaryRestrictions prefs)) "vegetarian");
      cbn [Spec.when map type protein_rec In]; intros H;
      [destruct H as [H|H]; [discriminate H|contradiction]|contradiction].
Qed.

(** X15.  The shape of a result.  Whenever the call completes, the
    lifestyle list is sleep then hydration, there are at most three workout
    and at most two nutrition recommendations, and no recommendation type
    occurs twice in the whole result. *)
Theorem getPersonalizedRecommendations_shape
  (p : Profile) (progress : option (list ProgressEntry))
  (r : Recommendations) :
  getPersonalizedRecommendations p progress = Return r ->
  lifestyle r = [sleep; hydration]
  /\ (List.length (workout r) <= 3)%nat
  /\ (List.length (nutrition r) <= 2)%nat
  /\ NoDup (map type (workout r ++ nutrition r ++ lifestyle r)).
Proof.
  unfold getPersonalizedRecommendations.
  destruct (fitnessGoals p) as [goals|] eqn:Hg.
  - rewrite (workout_rules p progress goals Hg). cbn [bind].
    destruct (preferences p) as [prefs|] eqn:Hp.
    + rewrite (nutrition_rules p progress prefs Hp).
      cbn [bind try_catch_rethrow]. intros [= <-].
      cbn [lifestyle workout nutrition].
      destruct (Spec.missedWorkout (Spec.orEmpty progress)),
               (includes goals "weight_loss"),
               (includes goals "muscle_gain"),
               (Spec.overTarget (Spec.orEmpty progress)),
               (includes (Spec.orEmpty (dietaryRestrictions prefs)) "vegetarian");
        (split; [reflexivity|]); (split; [cbn; lia|]); (split; [cbn; lia|]);
        cbn; repeat (constructor; [cbn; intuition discriminate|]);
        constructor.
    + unfold generateNutritionRecommendations. rewrite Hp. discriminate.
  - unfold generateWorkoutRecommendations. rewrite Hg. discriminate.
Qed.

End RecommendationEdges.

(** ** The calorie rule on integer counts *)

Section CalorieRule.

Import AIService.

Local Open Scope R_scope.

Lemma c_1_2_value : c_1_2 = S754_finite false 5404319552844595 (-52).
Proof. vm_compute. reflexivity. Qed.

Lemma integer_value_sign (s : bool) (m : positive) (e : Z) (a : Z) :
  integer_value (S754_finite s m e) = Some a ->
  if s then (a <= 0)%Z else (0 <= a)%Z.
Proof.
  unfold integer_value.
  assert (Hp : forall k, (0 <= k)%Z -> (0 < 2 ^ k)%Z)
    by (intros; apply Z.pow_pos_nonneg; lia).
  destruct (Z.leb_spec 0 e) as [He|He].
  - pose proof (Hp e He).
    assert (0 <= Zpos m * 2 ^ e)%Z by (apply Z.mul_nonneg_nonneg; lia).
    set (q := (Zpos m * 2 ^ e)%Z) in *. intros [= <-].
    destruct s; unfold cond_Zopp; lia.
  - destruct (Z.eqb_spec (Zpos m mod 2 ^ (- e)) 0) as [_|]; [|discriminate].
    intros [= <-]. pose proof (Hp (- e)%Z ltac:(lia)).
    assert (0 <= Zpos m / 2 ^ (- e))%Z by (apply Z.div_pos; lia).
    destruct s; unfold cond_Zopp; lia.
Qed.

Lemma integer_on_grid (c g : Z) :
  (g <= 0)%Z -> exists j : Z, IZR c = IZR j * bpow g.
Proof.
  intros Hg. exists (c * 2 ^ (- g))%Z.
  rewrite mult_IZR, <- bpow_IZR by lia.
  rewrite Rmult_assoc, <- bpow_add.
  replace (- g + g)%Z with 0%Z by lia. rewrite bpow_0. lra.
Qed.

(** The product [t * 1.2] as the language computes it, for an integer
    [t]: finite, positive, well formed, within [0.2] of [6 t / 5], and not
    below it when [6 t / 5] is an integer. *)
Lemma times_1_2 (T : JS.number) (t : Z) :
  JS.wf T = true -> integer_value T = Some t ->
  (1 <= t <= 1000000000)%Z ->
  exists (m : positive) (e : Z),
    JS.mul T c_1_2 = S754_finite false m e
    /\ SpecFloat.bounded JS.prec JS.emax m e = true
    /\ 6 / 5 * IZR t - 1 / 5 < IZR (Zpos m) * bpow e < 6 / 5 * IZR t + 1 / 5
    /\ (forall c : Z, (5 * c = 6 * t)%Z -> IZR c <= IZR (Zpos m) * bpow e).
Proof.
  intros Hwf Hi Ht.
  destruct (integer_value_B2R T t Hi) as [_ HB].
  destruct T as [s|s| |s mt et]; try discriminate.
  { cbn [integer_value] in Hi. injection Hi as <-. lia. }
  pose proof (integer_value_sign s mt et t Hi) as Hs.
  destruct s; [lia|]. clear Hs.
  rewrite B2R_finite in HB.
  rewrite c_1_2_value. cbn [JS.mul SFmul xorb].
  set (mx := Zpos (mt * 5404319552844595)).
  set (ex := (et + -52)%Z).
  assert (Hmx : (0 < mx)%Z) by (unfold mx; lia).
  assert (Hd53 : (52 < Zdigits2 mx)%Z).
  { apply Zdigits2_gt; [lia|]. unfold mx. rewrite Pos2Z.inj_mul.
    change (2 ^ 52)%Z with 4503599627370496%Z. nia. }
  destruct (Zdigits2_bounds mx Hmx) as [Hdlo Hdhi].
  set (d := Zdigits2 mx) in *.
  assert (Hv : IZR mx * bpow ex = IZR t * (5404319552844595 / 4503599627370496)).
  { unfold mx, ex. rewrite Pos2Z.inj_mul, mult_IZR, bpow_add, <- HB.
    change (-52)%Z with (Z.opp 52). rewrite bpow_opp, (bpow_IZR 52) by lia.
    change (2 ^ 52)%Z with 4503599627370496%Z. field. }
  set (v := IZR mx * bpow ex) in *.
  assert (Ht1 : 1 <= IZR t <= 1000000000) by (split; apply IZR_le; lia).
  assert (Hvlo : bpow (d - 1 + ex) <= v).
  { unfold v. rewrite bpow_add, (bpow_IZR (d - 1)) by lia.
    apply Rmult_le_compat_r; [apply Rlt_le, bpow_gt_0|apply IZR_le; lia]. }
  assert (Hvhi : v < bpow (d + ex)).
  { unfold v. rewrite bpow_add, (bpow_IZR d) by lia.
    apply Rmult_lt_compat_r; [apply bpow_gt_0|apply IZR_lt; lia]. }
  assert (Hde0 : (0 < d + ex)%Z).
  { destruct (Z_lt_le_dec 0 (d + ex)) as [|Hle]; [assumption|exfalso].
    assert (bpow (d + ex) <= bpow 0) by (apply bpow_le; lia).
    rewrite bpow_0 in *. lra. }
  assert (Hde31 : (d + ex <= 31)%Z).
  { destruct (Z_le_gt_dec (d + ex) 31) as [|Hgt]; [assumption|exfalso].
    assert (Hb : bpow 31 <= bpow (d - 1 + ex)) by (apply bpow_le; lia).
    rewrite (bpow_IZR 31) in Hb by lia.
    change (2 ^ 31)%Z with 2147483648%Z in Hb. lra. }
  assert (Hg : fexp64 (d + ex) = (d + ex - 53)%Z) by (rewrite fexp_eq; lia).
  destruct (binary_round_aux_grid false mx ex loc_Exact (IZR mx))
    as (k & y & Hr & Hk & Herr);
    [lia|reflexivity|fold d; rewrite Hg; lia| |].
  { fold v. apply Rle_trans with (bpow 31); [|apply bpow_le; lia].
    apply Rlt_le, Rlt_le_trans with (bpow (d + ex)); [assumption|].
    apply bpow_le; lia. }
  pose proof (binary_round_aux_valid false mx ex loc_Exact (IZR mx)
                ltac:(lia) eq_refl) as Hval.
  fold d in Hk, Herr, Hval. rewrite Hg in Hk, Herr.
  specialize (Hval ltac:(rewrite Hg; lia)).
  fold v in Herr.
  set (G := bpow (d + ex - 53)) in *.
  assert (HG1 : bpow (d + ex - 53 - 1) = G / 2) by (unfold G; apply bpow_pred).
  assert (HG2 : bpow (d - 1 + ex) = 4503599627370496 * G).
  { unfold G. replace (d - 1 + ex)%Z with (52 + (d + ex - 53))%Z by lia.
    rewrite bpow_add, (bpow_IZR 52) by lia. reflexivity. }
  assert (HG3 : bpow (d + ex) = 9007199254740992 * G).
  { unfold G. replace (d + ex)%Z with (53 + (d + ex - 53))%Z at 1 by lia.
    rewrite bpow_add, (bpow_IZR 53) by lia. reflexivity. }
  rewrite HG1 in Herr. rewrite HG2 in Hvlo. rewrite HG3 in Hvhi.
  assert (HG0 : 0 < G) by apply bpow_gt_0.
  apply Rabs_bounds in Herr.
  assert (Hy0 : 0 < y) by lra.
  destruct Hr as [[_ Hz]|(m & e & Hm & Hy)]; [lra|].
  exists m, e. rewrite Hm in Hval |- *. rewrite <- Hy.
  split; [reflexivity|]. split; [exact Hval|]. split; [lra|].
  intros c Hc.
  assert (Hcr : IZR c = 6 / 5 * IZR t).
  { apply (f_equal IZR) in Hc. rewrite !mult_IZR in Hc. lra. }
  destruct (integer_on_grid c (d + ex - 53) ltac:(lia)) as [j Hj].
  fold G in Hj.
  assert (Hkj : IZR j - 1 < IZR k).
  { apply Rmult_lt_reg_r with G; [assumption|]. lra. }
  assert (Hkj' : (j <= k)%Z).
  { rewrite <- minus_IZR in Hkj. apply lt_IZR in Hkj. lia. }
  apply IZR_le in Hkj'. rewrite Hj, Hk.
  apply Rmult_le_compat_r; lra.
Qed.

(** The calorie rule on integer counts: with a target of [t] kcal,
    [1 <= t <= 10^9], and [c] kcal consumed, the comparison
    [caloriesConsumed > targetCalories * 1.2] holds exactly when
    [5 c > 6 t]; rounding never changes the outcome. *)
Lemma over_target_exact (C T : JS.number) (c t : Z) :
  JS.wf C = true -> JS.wf T = true ->
  integer_value C = Some c -> integer_value T = Some t ->
  (1 <= t <= 1000000000)%Z ->
  JS.gt C (JS.mul T c_1_2) = true <-> (6 * t < 5 * c)%Z.
Proof.
  intros HwC HwT HC HT Ht.
  destruct (times_1_2 T t HwT HT Ht) as (m & e & -> & Hb & Hnear & Hgrid).
  assert (Ht1 : 1 <= IZR t) by (apply IZR_le; lia).
  destruct C as [s|s| |s mc ec]; try discriminate.
  - cbn [integer_value] in HC. injection HC as <-.
    split; [discriminate|lia].
  - pose proof (integer_value_sign s mc ec c HC) as Hs.
    destruct (integer_value_B2R _ c HC) as [_ HB].
    destruct s.
    + split; [discriminate|lia].
    + rewrite B2R_finite in HB.
      rewrite (gt_finite_pos mc m ec e HwC Hb), HB.
      split.
      * intros Hlt.
        destruct (Z_lt_le_dec (6 * t) (5 * c)) as [|Hle]; [assumption|exfalso].
        destruct (Z.eq_dec (5 * c) (6 * t)) as [Heq|Hne].
        -- specialize (Hgrid c Heq). lra.
        -- assert (H5 : (5 * c <= 6 * t - 1)%Z) by lia.
           apply IZR_le in H5. rewrite minus_IZR, !mult_IZR in H5. lra.
      * intros Hlt. assert (H5 : (6 * t + 1 <= 5 * c)%Z) by lia.
        apply IZR_le in H5. rewrite plus_IZR, !mult_IZR in H5. lra.
Qed.

(** X16.  The calorie rule, exactly.  When the first progress entry holds
    integer calorie counts, [t] kcal targeted with [1 <= t <= 10^9] and [c]
    kcal consumed, a completed call recommends calorie_control exactly
    when [5 c > 6 t], that is, when consumption exceeds 120 % of the target
    in exact arithmetic: the binary rounding of [1.2] and of the product
    never moves the threshold. *)
Theorem generateNutritionRecommendations_calorie_threshold
  (p : Profile) (e : ProgressEntry) (older : list ProgressEntry)
  (c t : Z) (rs : list Recommendation) :
  JS.wf (caloriesConsumed e) = true -> JS.wf (targetCalories e) = true ->
  integer_value (caloriesConsumed e) = Some c ->
  integer_value (targetCalories e) = Some t ->
  (1 <= t <= 1000000000)%Z ->
  generateNutritionRecommendations p (Some (e :: older)) = Return rs ->
  In calorie_control rs <-> (6 * t < 5 * c)%Z.
Proof.
  intros HwC HwT HC HT Ht Hrun.
  rewrite <- (over_target_exact _ _ c t HwC HwT HC HT Ht).
  unfold generateNutritionRecommendations in Hrun.
  destruct (preferences p) as [prefs|]; [|discriminate].
  cbn [get_of bind recentProgress] in Hrun.
  injection Hrun as <-.
  unfold push_if.
  destruct (JS.gt (caloriesConsumed e) (JS.mul (targetCalories e) c_1_2));
    destruct (match dietaryRestrictions prefs with
              | Some l => includes l "vegetarian"
              | None => false
              end); cbn [app In]; split; intros H;
    try discriminate; try reflexivity; try tauto;
    repeat match goal with
    | H : _ \/ _ |- _ => destruct H
    | H : False |- _ => contradiction
    | H : protein_rec = calorie_control |- _ => discriminate H
    end.
Qed.

End CalorieRule.

(** ** The calculator on the documented ranges *)

(** A valid profile at the low corner of the ranges: a sedentary man of
    120 years, 30 kg and 100 cm who wants to lose weight. *)
Definition frail : Profile := {|
  age := JS.of_Z 120;
  weight := JS.of_Z 30;
  height := JS.of_Z 100;
  gender := Some "male";
  activityLevel := Some "sedentary";
  fitnessGoals := Some ["weight_loss"];
  preferences := None |}.


Section DocumentedRanges.

Import AIService.

(** C2, as stated, fails: on a profile within the documented ranges that
    asks for weight loss, dailyCalories is -153. *)
Lemma calculateNutritionNeeds_dailyCalories_negative :
  validProfile frail = true
  /\ exists needs,
       calculateNutritionNeeds frail = Return needs
       /\ integer_value (dailyCalories needs) = Some (-153).
Proof.
  split; [vm_compute; reflexivity|].
  eexists. split; vm_compute; reflexivity.
Qed.

(** C2, amended.  For every profile whose age, weight and height lie in
    the documented ranges, with a gender among male, female and other, one
    of the four activity levels and any array of goals, dailyCalories is
    an integer between -153 and 9328; it is positive, at least 347,
    whenever the goals do not include weight_loss. *)
Theorem calculateNutritionNeeds_dailyCalories_range
  (p : Profile) (goals : list string) :
  validProfile p = true -> fitnessGoals p = Some goals ->
  exists needs d,
    calculateNutritionNeeds p = Return needs
    /\ integer_value (dailyCalories needs) = Some d
    /\ -153 <= d <= 9328
    /\ (includes goals "weight_loss" = false -> 347 <= d).
Proof.
  intros Hv Hg.
  pose proof (calculator_analysis p goals Hv Hg) as H. cbv zeta in H.
  set (T := B2R (Spec.target (Spec.TDEE p) goals)) in H. clearbody T.
  destruct H
    as (needs & d & pr & cb & ft & Hc & Hd & _ & _ & _
        & HT & Hpos & Rd & _).
  pose proof delta_val as Hdelta.
  exists needs, d.
  repeat (split; [assumption|]).
  split.
  - apply Z_between_of_R; lra.
  - intros Hwl. specialize (Hpos Hwl).
    apply (Z_between_of_R d 347 9328); lra.
Qed.



Lemma calculateNutritionNeeds_dailyCalories_range_witness :
  validProfile jane = true
  /\ exists needs d,
       calculateNutritionNeeds jane = Return needs
       /\ integer_value (dailyCalories needs) = Some d
       /\ -153 <= d <= 9328
       /\ (includes ["endurance"; "strength"] "weight_loss" = false ->
           347 <= d).
Proof.
  split; [vm_compute; reflexivity|].
  apply (calculateNutritionNeeds_dailyCalories_range jane
           ["endurance"; "strength"]); vm_compute; reflexivity.
Defined.


End DocumentedRanges.

(** ** Instances on the seeded users *)

Section Instances.

Import AIService.

Lemma calculateNutritionNeeds_valid_profile_range_witness :
  validProfile john = true
  /\ exists needs d pr cb ft,
       calculateNutritionNeeds john = Return needs
       /\ integer_value (dailyCalories needs) = Some d
       /\ integer_value (m_protein (macros needs)) = Some pr
       /\ integer_value (m_carbs (macros needs)) = Some cb
       /\ integer_value (m_fats (macros needs)) = Some ft
       /\ -153 <= d <= 9328
       /\ -10 <= pr <= 583
       /\ -17 <= cb <= 1049
       /\ -5 <= ft <= 311.
Proof.
  split; [vm_compute; reflexivity|].
  apply (calculateNutritionNeeds_valid_profile_range john
           ["weight_loss"; "muscle_gain"]); vm_compute; reflexivity.
Defined.

Lemma calculateNutritionNeeds_positive_witness :
  validProfile jane = true
  /\ includes ["endurance"; "strength"] "weight_loss" = false
  /\ exists needs d pr cb ft,
       calculateNutritionNeeds jane = Return needs
       /\ integer_value (dailyCalories needs) = Some d
       /\ integer_value (m_protein (macros needs)) = Some pr
       /\ integer_value (m_carbs (macros needs)) = Some cb
       /\ integer_value (m_fats (macros needs)) = Some ft
       /\ 347 <= d /\ 22 <= pr /\ 39 <= cb /\ 12 <= ft.
Proof.
  split; [vm_compute; reflexivity|]. split; [reflexivity|].
  apply (calculateNutritionNeeds_positive jane ["endurance"; "strength"]);
    vm_compute; reflexivity.
Defined.

Lemma calculateNutritionNeeds_macro_kcal_witness :
  validProfile john = true
  /\ exists needs d pr cb ft,
       calculateNutritionNeeds john = Return needs
       /\ integer_value (dailyCalories needs) = Some d
       /\ integer_value (m_protein (macros needs)) = Some pr
       /\ integer_value (m_carbs (macros needs)) = Some cb
       /\ integer_value (m_fats (macros needs)) = Some ft
       /\ Z.abs (4 * pr + 4 * cb + 9 * ft - d) <= 8.
Proof.
  split; [vm_compute; reflexivity|].
  apply (calculateNutritionNeeds_macro_kcal john
           ["weight_loss"; "muscle_gain"]); vm_compute; reflexivity.
Defined.

Lemma calculateNutritionNeeds_missing_number_witness :
  weight (with_weight JS.NaN john) = JS.NaN
  /\ calculateNutritionNeeds (with_weight JS.NaN john) = Return all_NaN.
Proof.
  split; [reflexivity|].
  apply (calculateNutritionNeeds_missing_number (with_weight JS.NaN john)
           ["weight_loss"; "muscle_gain"]);
    [reflexivity|right; left; reflexivity].
Defined.

Lemma calculateNutritionNeeds_inherited_level_witness :
  In "constructor" Object_prototype_keys
  /\ calculateNutritionNeeds (with_activityLevel (Some "constructor") jane)
     = Return all_NaN.
Proof.
  split; [cbn; tauto|].
  apply (calculateNutritionNeeds_inherited_level
           (with_activityLevel (Some "constructor") jane)
           ["endurance"; "strength"] "constructor");
    [reflexivity|reflexivity|cbn; tauto].
Defined.

Lemma calculateNutritionNeeds_unknown_level_is_sedentary_witness :
  ~ In "extremely_active" (activityLevels ++ Object_prototype_keys)
  /\ calculateNutritionNeeds (with_activityLevel (Some "extremely_active") john)
     = calculateNutritionNeeds (with_activityLevel (Some "sedentary") john).
Proof.
  assert (H : ~ In "extremely_active" (activityLevels ++ Object_prototype_keys)).
  { intros Hin. apply includes_in in Hin. discriminate Hin. }
  split; [exact H|].
  exact (calculateNutritionNeeds_unknown_level_is_sedentary
           (with_activityLevel (Some "extremely_active") john) H).
Defined.

Lemma calculateNutritionNeeds_not_male_is_female_witness :
  gender (with_gender (Some "other") john) <> Some "male"
  /\ calculateNutritionNeeds (with_gender (Some "other") john)
     = calculateNutritionNeeds (with_gender (Some "female") john).
Proof.
  assert (H : gender (with_gender (Some "other") john) <> Some "male")
    by discriminate.
  split; [exact H|].
  exact (calculateNutritionNeeds_not_male_is_female
           (with_gender (Some "other") john) H).
Defined.

Lemma calculateNutritionNeeds_goal_precedence_witness :
  calculateNutritionNeeds
    (with_fitnessGoals (Some ["muscle_gain"; "weight_loss"]) jane)
  = calculateNutritionNeeds
      (with_fitnessGoals (Some ["weight_loss"; "endurance"]) jane).
Proof.
  apply (calculateNutritionNeeds_goal_precedence jane
           ["muscle_gain"; "weight_loss"] ["weight_loss"; "endurance"]).
  - reflexivity.
  - discriminate.
Defined.

Lemma generateMealPlan_monotone_witness :
  exists meals1,
    In ("lunch", meals1) (filterMeals ["gluten_free"])
    /\ In (nth 1 (slot "lunch") (hd_meal (slot "lunch"))) meals1.
Proof.
  apply (generateMealPlan_monotone john
           (request ["gluten_free"]) (request ["gluten_free"; "vegan"])
           (filterMeals ["gluten_free"]) (filterMeals ["gluten_free"; "vegan"])
           ltac:(cbn; tauto) eq_refl eq_refl
           "lunch" [nth 1 (slot "lunch") (hd_meal (slot "lunch"))]);
    cbn; tauto.
Defined.

Lemma generateMealPlan_other_tags_ignored_witness :
  generateMealPlan jane (request ["vegetarian"]) = generateMealPlan jane None.
Proof.
  apply (generateMealPlan_other_tags_ignored jane
           (request ["vegetarian"]) None); reflexivity.
Defined.

Lemma generateMealPlan_gluten_free_witness :
  In "gluten_free" (Spec.restrictions (request ["gluten_free"]))
  /\ glutenFree (hd_meal (slot "breakfast")) = true.
Proof.
  split; [cbn; tauto|].
  apply (generateMealPlan_gluten_free john (request ["gluten_free"])
           (filterMeals ["gluten_free"]) ltac:(cbn; tauto) eq_refl
           "breakfast" [hd_meal (slot "breakfast")]); cbn; tauto.
Defined.

Lemma getPersonalizedRecommendations_reads_witness :
  getPersonalizedRecommendations john (Some [bad_day])
  = getPersonalizedRecommendations (with_weight JS.NaN john)
      (Some [bad_day; bad_day]).
Proof.
  apply (getPersonalizedRecommendations_reads john (with_weight JS.NaN john)
           (Some [bad_day]) (Some [bad_day; bad_day])); reflexivity.
Defined.

Lemma generateNutritionRecommendations_missing_calories_witness :
  preferences jane <> None
  /\ exists rs,
       generateNutritionRecommendations jane (Some [no_numbers; bad_day])
       = Return rs
       /\ rs = [protein_rec]
       /\ ~ In "calorie_control" (map type rs).
Proof.
  split; [discriminate|].
  apply (generateNutritionRecommendations_missing_calories jane _
           no_numbers [bad_day] eq_refl).
  left. reflexivity.
Defined.

Lemma calculateNutritionNeeds_goal_adjustment_witness :
  validProfile jane = true
  /\ exists n0 n1 n2 d0 d1 d2,
       calculateNutritionNeeds (with_fitnessGoals (Some []) jane) = Return n0
       /\ calculateNutritionNeeds
            (with_fitnessGoals (Some ["weight_loss"]) jane) = Return n1
       /\ calculateNutritionNeeds
            (with_fitnessGoals (Some ["muscle_gain"]) jane) = Return n2
       /\ integer_value (dailyCalories n0) = Some d0
       /\ integer_value (dailyCalories n1) = Some d1
       /\ integer_value (dailyCalories n2) = Some d2
       /\ 499 <= d0 - d1 <= 501
       /\ 299 <= d2 - d0 <= 301.
Proof.
  split; [vm_compute; reflexivity|].
  apply (calculateNutritionNeeds_goal_adjustment jane).
  vm_compute; reflexivity.
Defined.

Lemma getPersonalizedRecommendations_shape_witness :
  exists r,
    getPersonalizedRecommendations john (Some [bad_day]) = Return r
    /\ lifestyle r = [sleep; hydration]
    /\ (List.length (workout r) <= 3)%nat
    /\ (List.length (nutrition r) <= 2)%nat
    /\ NoDup (map type (workout r ++ nutrition r ++ lifestyle r)).
Proof.
  eexists. split; [reflexivity|].
  apply (getPersonalizedRecommendations_shape john (Some [bad_day])).
  reflexivity.
Defined.

Lemma generateNutritionRecommendations_calorie_threshold_witness :
  integer_value (caloriesConsumed bad_day) = Some 2600
  /\ integer_value (targetCalories bad_day) = Some 2000
  /\ (In calorie_control [calorie_control] <-> 6 * 2000 < 5 * 2600).
Proof.
  split; [reflexivity|]. split; [reflexivity|].
  apply (generateNutritionRecommendations_calorie_threshold john bad_day []
           2600 2000 [calorie_control]); try reflexivity. lia.
Defined.

Lemma generateMealPlan_ignores_profile_witness :
  generateMealPlan john (request ["vegan"])
  = generateMealPlan jane (request ["vegan"]).
Proof.
  apply (generateMealPlan_ignores_profile john jane (request ["vegan"]));
    discriminate.
Defined.

End Instances.
